(** * Whisper transcription worker ([whisper-worker/app.py])

    A shallow embedding of the worker's idle-shutdown timer, of its
    subtitle renderers ([generate_srt], [generate_vtt] and the two timestamp
    formatters) and of the [/transcribe] request handler, followed by the
    properties of these functions.

    Conventions.
    - A Python [float] is an IEEE-754 binary64 number.  A finite one is kept
      as the integer number of units of [2^-1074] it is worth (every finite
      double is such a multiple), so that [fmod], [floor] and truncation are
      exact integer operations and every rounding is written out ([rnd]).
      The sign of zero is not represented: the code only feeds floats to
      comparisons and to [int()], which do not see it.
    - A Python [str] is a [string]; a character [ascii] stands for the code
      point of the same number (0..255).
    - A Python exception is a value of [exn]; a computation that may raise
      returns an [outcome]. *)

From Stdlib Require Import ZArith Bool List String Ascii Lia.
From Stdlib Require Import SpecFloat.
Import ListNotations.

Open Scope string_scope.
Open Scope Z_scope.

(** ** Exceptions and results *)

Inductive exn : Type :=
| HTTPException (status_code : Z) (detail : string)
| Exc (cls : string) (msg : string).

(** [str(e)] *)
Definition str_exn (e : exn) : string :=
  match e with
  | HTTPException c d => d
  | Exc _ m => m
  end.

Inductive outcome (A : Type) : Type :=
| Ret (a : A)
| Raise (e : exn).
Arguments Ret {A} a.
Arguments Raise {A} e.

Definition bind {A B : Type} (m : outcome A) (k : A -> outcome B) : outcome B :=
  match m with
  | Ret a => k a
  | Raise e => Raise e
  end.

Notation "x <- m ;; k" := (bind m (fun x => k))
  (at level 61, m at next level, right associativity).

(** ** Binary64 arithmetic *)

Module Double.

(** [1.0], in units of [2^-1074]. *)
Definition U : Z := 2 ^ 1074.

(** The largest finite double, [(2^53 - 1) * 2^971]. *)
Definition MAX : Z := (2 ^ 53 - 1) * 2 ^ 2045.

Inductive float : Type :=
| Fin (n : Z)        (* the double worth [n * 2^-1074] *)
| Inf (neg : bool)
| NaN.

(** Nearest integer to [n / d] ([0 < d]), ties to even. *)
Definition rne (n d : Z) : Z :=
  let q := n / d in
  match 2 * (n mod d) ?= d with
  | Lt => q
  | Gt => q + 1
  | Eq => if Z.even q then q else q + 1
  end.

(** Exponent of the unit in the last place of [n / d]: 53 significant
    bits, and never below the subnormal spacing of one unit. *)
Definition ulp_exp (n d : Z) : Z := Z.max 0 (Z.log2 (Z.abs n / d) - 52).

(** [n / d] units rounded to a double of unbounded exponent. *)
Definition round (n d : Z) : Z :=
  let k := ulp_exp n d in rne n (d * 2 ^ k) * 2 ^ k.

(** Round to nearest even, overflowing to an infinity. *)
Definition rnd (n d : Z) : float :=
  let r := round n d in
  if MAX <? Z.abs r then Inf (r <? 0) else Fin r.

(** A double: at most 53 significant bits, within range. *)
Definition is_double (n : Z) : Prop :=
  (2 ^ ulp_exp n 1 | n) /\ Z.abs n <= MAX.

Definition is_doubleb (n : Z) : bool :=
  (n mod 2 ^ ulp_exp n 1 =? 0) && (Z.abs n <=? MAX).

(** Conversion of a Python [int]. *)
Definition of_int (z : Z) : float := rnd (z * U) 1.

(** The double [m * 2^e]. *)
Definition of_bits (m e : Z) : float := rnd (m * 2 ^ (e + 1074)) 1.

Definition opp (x : float) : float :=
  match x with
  | Fin n => Fin (- n)
  | Inf s => Inf (negb s)
  | NaN => NaN
  end.

Definition add (x y : float) : float :=
  match x, y with
  | NaN, _ | _, NaN => NaN
  | Inf s, Inf t => if Bool.eqb s t then Inf s else NaN
  | Inf s, Fin _ => Inf s
  | Fin _, Inf t => Inf t
  | Fin a, Fin b => rnd (a + b) 1
  end.

Definition sub (x y : float) : float := add x (opp y).

Definition mul (x y : float) : float :=
  match x, y with
  | NaN, _ | _, NaN => NaN
  | Inf s, Inf t => Inf (xorb s t)
  | Inf s, Fin b => if b =? 0 then NaN else Inf (xorb s (b <? 0))
  | Fin a, Inf t => if a =? 0 then NaN else Inf (xorb (a <? 0) t)
  | Fin a, Fin b => rnd (a * b) U
  end.

Definition div (x y : float) : float :=
  match x, y with
  | NaN, _ | _, NaN => NaN
  | Inf _, Inf _ => NaN
  | Inf s, Fin b => Inf (xorb s (b <? 0))
  | Fin _, Inf _ => Fin 0
  | Fin a, Fin b =>
      if b =? 0 then (if a =? 0 then NaN else Inf (a <? 0))
      else rnd (Z.sgn b * a * U) (Z.abs b)
  end.

(** C's [floor]. *)
Definition floor (x : float) : float :=
  match x with
  | Fin n => Fin (n / U * U)
  | _ => x
  end.

(** C's [fmod]: exact, with the sign of the dividend. *)
Definition fmod (x y : float) : float :=
  match x, y with
  | NaN, _ | _, NaN => NaN
  | Inf _, _ => NaN
  | Fin a, Inf _ => Fin a
  | Fin a, Fin b => if b =? 0 then NaN else Fin (Z.rem a b)
  end.

(** [x < y]; false when either side is a NaN. *)
Definition ltb (x y : float) : bool :=
  match x, y with
  | NaN, _ | _, NaN => false
  | Inf s, Inf t => s && negb t
  | Inf s, Fin _ => s
  | Fin _, Inf t => negb t
  | Fin a, Fin b => a <? b
  end.

(** C's truth value of a double: [x != 0]. *)
Definition nonzero (x : float) : bool :=
  match x with
  | Fin n => negb (n =? 0)
  | _ => true
  end.

Definition zero : float := Fin 0.
Definition half : float := Fin (2 ^ 1073).
Definition one : float := Fin U.

End Double.

Import Double.

(** ** Python's float operators (CPython, [Objects/floatobject.c]) *)

(** [float_rem]: [v % w]. *)
Definition float_rem (v w : float) : outcome float :=
  if negb (nonzero w) then Raise (Exc "ZeroDivisionError" "float modulo")
  else
    let mod_ := fmod v w in
    if nonzero mod_ then
      (* the remainder takes the sign of the denominator *)
      if negb (Bool.eqb (ltb w zero) (ltb mod_ zero)) then Ret (add mod_ w)
      else Ret mod_
    else Ret zero.

(** [float_floor_div], through [_float_div_mod]: [v // w]. *)
Definition float_floor_div (v w : float) : outcome float :=
  if negb (nonzero w) then Raise (Exc "ZeroDivisionError" "float floor division by zero")
  else
    let mod_ := fmod v w in
    let div0 := div (sub v mod_) w in
    let div_ :=
      if nonzero mod_ && negb (Bool.eqb (ltb w zero) (ltb mod_ zero))
      then sub div0 one else div0 in
    if nonzero div_ then
      (* snap the quotient to the nearest integral value *)
      let floordiv := floor div_ in
      if ltb half (sub div_ floordiv) then Ret (add floordiv one)
      else Ret floordiv
    else Ret zero.

(** [float.__int__]: truncation towards zero. *)
Definition float_int (x : float) : outcome Z :=
  match x with
  | Fin n => Ret (Z.quot n U)
  | Inf _ => Raise (Exc "OverflowError" "cannot convert float infinity to integer")
  | NaN => Raise (Exc "ValueError" "cannot convert float NaN to integer")
  end.

(** ** Integer formatting *)

Definition digit_char (d : Z) : ascii := ascii_of_nat (48 + Z.to_nat d).

Fixpoint digits_from (fuel : nat) (n : Z) (acc : string) : string :=
  match fuel with
  | O => acc
  | S fuel' =>
      let acc' := String (digit_char (n mod 10)) acc in
      if n <? 10 then acc' else digits_from fuel' (n / 10) acc'
  end.

(** The decimal digits of [0 <= n]. *)
Definition digits (n : Z) : string :=
  digits_from (S (Z.to_nat (Z.log2 n))) n "".

(** [str(n)] and the format spec [{n}]. *)
Definition str_int (n : Z) : string :=
  if n <? 0 then "-" ++ digits (- n) else digits n.

Fixpoint zeros (k : nat) : string :=
  match k with
  | O => ""
  | S k' => String "0" (zeros k')
  end.

(** The format spec [{n:0wd}]: zeros are inserted after the sign, up to a
    total width of [w]; a longer number is not truncated. *)
Definition format_d (w : nat) (n : Z) : string :=
  let sign := if n <? 0 then "-" else "" in
  let ds := digits (Z.abs n) in
  sign ++ zeros (w - length sign - length ds) ++ ds.

(** ** Timestamp formatters *)

Record hms : Type := mk_hms {
  hours : Z; minutes : Z; secs : Z; millis : Z
}.

(** The four fields both formatters compute, in the order of the source. *)
Definition timestamp_fields (seconds : float) : outcome hms :=
  hours <- (q <- float_floor_div seconds (of_int 3600) ;; float_int q) ;;
  minutes <- (r <- float_rem seconds (of_int 3600) ;;
              q <- float_floor_div r (of_int 60) ;; float_int q) ;;
  secs <- (r <- float_rem seconds (of_int 60) ;; float_int r) ;;
  millis <- (r <- float_rem seconds (of_int 1) ;;
             float_int (mul r (of_int 1000))) ;;
  Ret (mk_hms hours minutes secs millis).

Definition format_timestamp_srt (seconds : float) : outcome string :=
  f <- timestamp_fields seconds ;;
  Ret (format_d 2 (hours f) ++ ":" ++ format_d 2 (minutes f) ++ ":"
       ++ format_d 2 (secs f) ++ "," ++ format_d 3 (millis f)).

Definition format_timestamp_vtt (seconds : float) : outcome string :=
  f <- timestamp_fields seconds ;;
  Ret (format_d 2 (hours f) ++ ":" ++ format_d 2 (minutes f) ++ ":"
       ++ format_d 2 (secs f) ++ "." ++ format_d 3 (millis f)).

(** ** Strings *)

(** [str.isspace] on one character (code points below 256). *)
Definition isspace (c : ascii) : bool :=
  let n := Z.of_nat (nat_of_ascii c) in
  ((9 <=? n) && (n <=? 13)) || ((28 <=? n) && (n <=? 32))
  || (n =? 133) || (n =? 160).

Fixpoint lstrip (s : string) : string :=
  match s with
  | EmptyString => EmptyString
  | String c s' => if isspace c then lstrip s' else s
  end.

Fixpoint rstrip (s : string) : string :=
  match s with
  | EmptyString => EmptyString
  | String c s' =>
      match rstrip s' with
      | EmptyString => if isspace c then EmptyString else String c EmptyString
      | t => String c t
      end
  end.

(** [s.strip()] *)
Definition strip (s : string) : string := rstrip (lstrip s).

(** [sep.join(l)] *)
Fixpoint join (sep : string) (l : list string) : string :=
  match l with
  | [] => ""
  | [x] => x
  | x :: rest => x ++ sep ++ join sep rest
  end.

Definition newline : string := String (ascii_of_nat 10) "".

(** [str.lower] on one character (code points below 256). *)
Definition lower_char (c : ascii) : ascii :=
  let n := nat_of_ascii c in
  if ((65 <=? n) && (n <=? 90)
      || (192 <=? n) && (n <=? 222) && negb (n =? 215))%nat
  then ascii_of_nat (n + 32) else c.

Fixpoint lower (s : string) : string :=
  match s with
  | EmptyString => EmptyString
  | String c s' => String (lower_char c) (lower s')
  end.

(** [s.rfind(c)], as an index from the left; [None] for [-1]. *)
Fixpoint rfind (c : ascii) (s : string) : option nat :=
  match s with
  | EmptyString => None
  | String a s' =>
      match rfind c s' with
      | Some i => Some (S i)
      | None => if Ascii.eqb a c then Some O else None
      end
  end.

(** [s[i:]] and [s[:i]] *)
Fixpoint drop (i : nat) (s : string) : string :=
  match i, s with
  | O, _ => s
  | S i', String _ s' => drop i' s'
  | S _, EmptyString => EmptyString
  end.

Fixpoint take (i : nat) (s : string) : string :=
  match i, s with
  | S i', String c s' => String c (take i' s')
  | _, _ => EmptyString
  end.

(** The loop of [genericpath._splitext] over [p[filenameIndex:dotIndex]]:
    is some character before the last dot not a dot? *)
Fixpoint has_non_dot (s : string) : bool :=
  match s with
  | EmptyString => false
  | String c s' => negb (Ascii.eqb c ".") || has_non_dot s'
  end.

(** [os.path.splitext(p)] ([posixpath]): the extension starts at the last
    dot of the last path component, leading dots of that component apart. *)
Definition splitext (p : string) : string * string :=
  let filenameIndex := match rfind "/" p with Some i => S i | None => O end in
  match rfind "." p with
  | Some dotIndex =>
      if (filenameIndex <=? dotIndex)%nat
         && has_non_dot (take (dotIndex - filenameIndex) (drop filenameIndex p))
      then (take dotIndex p, drop dotIndex p)
      else (p, "")
  | None => (p, "")
  end.

(** ** Transcription results *)

(** JSON data the handler carries without looking into it. *)
#[warnings="-register-all"]
Inductive json : Type :=
| JNull
| JBool (b : bool)
| JNum (x : float)
| JStr (s : string)
| JList (l : list json)
| JDict (d : list (string * json)).

(** One segment of Whisper's result: the three keys the renderers read, and
    the other keys ([id], [seek], [tokens], ...) as they came. *)
Record Segment : Type := mk_segment {
  seg_start : float;
  seg_end : float;
  seg_text : string;
  seg_rest : list (string * json)
}.

Inductive value : Type :=
| VJson (j : json)
| VSegments (l : list Segment).

(** A Python [dict] with string keys, in insertion order. *)
Definition dict : Type := list (string * value).

Fixpoint lookup (k : string) (d : dict) : option value :=
  match d with
  | [] => None
  | (k', v) :: d' => if String.eqb k k' then Some v else lookup k d'
  end.

(** [d[k]] *)
Definition getitem (d : dict) (k : string) : outcome value :=
  match lookup k d with
  | Some v => Ret v
  | None => Raise (Exc "KeyError" ("'" ++ k ++ "'"))
  end.

(** [result.get("segments", [])], as the list the loops iterate over. *)
Definition get_segments (result : dict) : outcome (list Segment) :=
  match lookup "segments" result with
  | None => Ret []
  | Some (VSegments l) => Ret l
  | Some (VJson _) => Raise (Exc "TypeError" "segments")
  end.

(** ** Subtitle renderers *)

(** The [for] loop of [generate_srt]; [i] is the counter of
    [enumerate(segments, 1)], [srt_lines] the list built so far. *)
Fixpoint srt_loop (i : Z) (segments : list Segment) (srt_lines : list string)
  : outcome (list string) :=
  match segments with
  | [] => Ret srt_lines
  | segment :: rest =>
      start_time <- format_timestamp_srt (seg_start segment) ;;
      end_time <- format_timestamp_srt (seg_end segment) ;;
      let text := strip (seg_text segment) in
      srt_loop (i + 1) rest
        (srt_lines ++ [str_int i; start_time ++ " --> " ++ end_time; text; ""])
  end.

Definition generate_srt (result : dict) : outcome string :=
  segments <- get_segments result ;;
  srt_lines <- srt_loop 1 segments [] ;;
  Ret (join newline srt_lines).

Fixpoint vtt_loop (segments : list Segment) (vtt_lines : list string)
  : outcome (list string) :=
  match segments with
  | [] => Ret vtt_lines
  | segment :: rest =>
      start_time <- format_timestamp_vtt (seg_start segment) ;;
      end_time <- format_timestamp_vtt (seg_end segment) ;;
      let text := strip (seg_text segment) in
      vtt_loop rest (vtt_lines ++ [start_time ++ " --> " ++ end_time; text; ""])
  end.

Definition generate_vtt (result : dict) : outcome string :=
  segments <- get_segments result ;;
  vtt_lines <- vtt_loop segments ["WEBVTT"; ""] ;;
  Ret (join newline vtt_lines).

(** ** Process state *)

(** What the handlers log at level INFO and above ([basicConfig] sets the
    level to INFO, so the [logger.debug] of [reset_shutdown_timer] leaves no
    trace). *)
Inductive log_entry : Type :=
| InfoShuttingDown
| InfoModelLoaded
| ErrorModelLoad (msg : string)
| InfoProcessing (filename : option string) (nbytes : nat)
| InfoStarting (transcribe_options : list (string * string))
| ErrorTranscription (msg : string)
| WarningDeleteFailed (msg : string).

(** A [threading.Timer]: the time at which its thread wakes up, and its
    [finished] event, set by [cancel()] and after the callback has run. *)
Record Timer : Type := mk_timer {
  deadline : Z;
  finished : bool
}.

(** The module's globals, the clock read by [time.time()], the number of
    SIGTERMs the process has sent to itself, and the temporary files on
    disk. *)
Record World : Type := mk_world {
  clock : Z;
  IDLE_TIMEOUT : Z;
  model_loaded : bool;
  last_request_time : Z;
  shutdown_timer : option Timer;
  sigterms : nat;
  files : list string;
  log : list log_entry
}.

Definition set_clock (t : Z) (w : World) : World :=
  mk_world t (IDLE_TIMEOUT w) (model_loaded w) (last_request_time w)
    (shutdown_timer w) (sigterms w) (files w) (log w).

Definition set_model_loaded (b : bool) (w : World) : World :=
  mk_world (clock w) (IDLE_TIMEOUT w) b (last_request_time w)
    (shutdown_timer w) (sigterms w) (files w) (log w).

Definition set_last_request_time (t : Z) (w : World) : World :=
  mk_world (clock w) (IDLE_TIMEOUT w) (model_loaded w) t
    (shutdown_timer w) (sigterms w) (files w) (log w).

Definition set_shutdown_timer (tm : option Timer) (w : World) : World :=
  mk_world (clock w) (IDLE_TIMEOUT w) (model_loaded w) (last_request_time w)
    tm (sigterms w) (files w) (log w).

Definition kill_sigterm (w : World) : World :=
  mk_world (clock w) (IDLE_TIMEOUT w) (model_loaded w) (last_request_time w)
    (shutdown_timer w) (S (sigterms w)) (files w) (log w).

Definition set_files (fs : list string) (w : World) : World :=
  mk_world (clock w) (IDLE_TIMEOUT w) (model_loaded w) (last_request_time w)
    (shutdown_timer w) (sigterms w) fs (log w).

Definition logger (e : log_entry) (w : World) : World :=
  mk_world (clock w) (IDLE_TIMEOUT w) (model_loaded w) (last_request_time w)
    (shutdown_timer w) (sigterms w) (files w) (log w ++ [e]).

(** [IDLE_TIMEOUT = int(os.getenv("IDLE_TIMEOUT_MINUTES", "10")) * 60] *)
Definition idle_timeout_of_env (IDLE_TIMEOUT_MINUTES : option Z) : Z :=
  match IDLE_TIMEOUT_MINUTES with
  | Some m => m
  | None => 10
  end * 60.

(** ** Idle-shutdown timer *)

(** [Timer.cancel()] *)
Definition cancel (tm : Timer) : Timer := mk_timer (deadline tm) true.

(** The body of [reset_shutdown_timer], run under [shutdown_lock]. *)
Definition reset_shutdown_timer (w : World) : World :=
  let w := set_last_request_time (clock w) w in
  match shutdown_timer w with
  | Some tm => set_shutdown_timer (Some (cancel tm)) w
  | None => w
  end.

(** The inner function [shutdown] of [schedule_shutdown]. *)
Definition shutdown (w : World) : World :=
  kill_sigterm (logger InfoShuttingDown w).

(** The body of [schedule_shutdown], run under [shutdown_lock]: the timer
    started here wakes up [IDLE_TIMEOUT] seconds from now. *)
Definition schedule_shutdown (w : World) : World :=
  let w := match shutdown_timer w with
           | Some tm => set_shutdown_timer (Some (cancel tm)) w
           | None => w
           end in
  set_shutdown_timer (Some (mk_timer (clock w + IDLE_TIMEOUT w) false)) w.

(** Time passes until [t].  The thread of the timer held in
    [shutdown_timer] (the only one that can still be pending, since
    [schedule_shutdown] cancels the timer it replaces) wakes up at its
    deadline and, unless [finished] is set, runs [shutdown] and sets it. *)
Definition advance (t : Z) (w : World) : World :=
  match shutdown_timer w with
  | Some tm =>
      if negb (finished tm) && (deadline tm <=? t)
      then set_clock t (set_shutdown_timer (Some (mk_timer (deadline tm) true))
                          (shutdown (set_clock (deadline tm) w)))
      else set_clock t w
  | None => set_clock t w
  end.

(** [load_model], the startup hook; [loaded] is the outcome of
    [whisper.load_model]. *)
Definition load_model (loaded : outcome unit) (w : World) : outcome unit * World :=
  match loaded with
  | Ret _ =>
      let w := set_model_loaded true w in
      let w := logger InfoModelLoaded w in
      (Ret tt, schedule_shutdown w)
  | Raise e => (Raise e, logger (ErrorModelLoad (str_exn e)) w)
  end.

(** [GET /health] *)
Definition health (WHISPER_MODEL : string) (w : World) : dict * World :=
  let w := reset_shutdown_timer w in
  ([("status", VJson (JStr "ok"));
    ("model_loaded", VJson (JBool (model_loaded w)));
    ("model_size", VJson (JStr WHISPER_MODEL))], w).

(** ** [POST /transcribe] *)

Record UploadFile : Type := mk_upload {
  filename : option string;
  read : outcome string               (* the outcome of [await file.read()] *)
}.

Record Request : Type := mk_request {
  file : UploadFile;
  language : option string;
  response_format : option string     (* [None]: the form field is absent *)
}.

(** The collaborators of one request: the temporary-file calls, the
    inference call and [os.unlink], each with the outcome it has. *)
Record Env : Type := mk_env {
  NamedTemporaryFile : string -> outcome string;   (* suffix |-> name of the file created *)
  write : string -> string -> outcome unit;        (* name, content *)
  model_transcribe : string -> list (string * string) -> outcome dict;
  unlink : string -> outcome unit
}.

(** The locals the [finally] block reads; [None] in [temp_file_path] is a
    local that was never assigned. *)
Record Locals : Type := mk_locals {
  temp_file : option string;
  temp_file_path : option string
}.

Definition allowed_extensions : list string :=
  [".mp3"; ".wav"; ".webm"; ".ogg"; ".flac"; ".m4a"; ".mp4"].

(** [x in l] for a list of strings *)
Definition mem (x : string) (l : list string) : bool := existsb (String.eqb x) l.

Definition file_ext_of (f : UploadFile) : string :=
  match filename f with
  | Some (String c n) => lower (snd (splitext (String c n)))
  | _ => ""
  end.

(** The form default, [Form("verbose_json")]. *)
Definition response_format_of (req : Request) : string :=
  match response_format req with
  | Some f => f
  | None => "verbose_json"
  end.

(** [transcribe_options]: the language hint, when one is given. *)
Definition transcribe_options_of (language : option string) : list (string * string) :=
  match language with
  | Some (String c l) => [("language", String c l)]
  | _ => []
  end.

(** The chain of [if]/[elif] on [response_format]; the value returned is
    the content handed to [JSONResponse]. *)
Definition format_response (response_format : string) (result : dict) : outcome dict :=
  if (response_format =? "json")%string then
    text <- getitem result "text" ;; Ret [("text", text)]
  else if (response_format =? "text")%string then
    text <- getitem result "text" ;; Ret [("text", text)]
  else if (response_format =? "verbose_json")%string then
    Ret result
  else if (response_format =? "srt")%string then
    srt_content <- generate_srt result ;;
    Ret [("text", VJson (JStr srt_content)); ("format", VJson (JStr "srt"))]
  else if (response_format =? "vtt")%string then
    vtt_content <- generate_vtt result ;;
    Ret [("text", VJson (JStr vtt_content)); ("format", VJson (JStr "vtt"))]
  else
    Ret result.

(** The body of the [try] statement. *)
Definition try_body (env : Env) (req : Request) (file_ext : string) (w : World)
  : outcome dict * Locals * World :=
  match NamedTemporaryFile env file_ext with
  | Raise e => (Raise e, mk_locals None None, w)
  | Ret name =>
      (* [with ... as temp_file]: the file exists, [temp_file] is bound *)
      let w := set_files (name :: files w) w in
      match read (file req) with
      | Raise e => (Raise e, mk_locals (Some name) None, w)
      | Ret content =>
          match write env name content with
          | Raise e => (Raise e, mk_locals (Some name) None, w)
          | Ret _ =>
              let temp_file_path := name in
              let locals := mk_locals (Some name) (Some temp_file_path) in
              let w := logger (InfoProcessing (filename (file req))
                                 (String.length content)) w in
              let transcribe_options := transcribe_options_of (language req) in
              let w := logger (InfoStarting transcribe_options) w in
              match model_transcribe env temp_file_path transcribe_options with
              | Raise e => (Raise e, locals, w)
              | Ret result =>
                  (format_response (response_format_of req) result, locals, w)
              end
          end
      end
  end.

(** The [finally] block. *)
Definition finally_block (env : Env) (locals : Locals) (w : World)
  : outcome unit * World :=
  match temp_file locals with
  | None => (Ret tt, w)
  | Some _ =>
      match temp_file_path locals with
      | None => (Raise (Exc "UnboundLocalError"
                 "cannot access local variable 'temp_file_path' where it is not associated with a value"), w)
      | Some path =>
          if mem path (files w) then
            match unlink env path with
            | Ret _ =>
                (Ret tt, set_files (filter (fun f => negb (f =? path)%string) (files w)) w)
            | Raise e => (Ret tt, logger (WarningDeleteFailed (str_exn e)) w)
            end
          else (Ret tt, w)
      end
  end.

(** The handler.  [Ret content] is the 200 response [JSONResponse(content)];
    [Raise (HTTPException c d)] is the error response the framework builds;
    any other [Raise] is an exception that leaves the handler unhandled. *)
Definition transcribe (env : Env) (req : Request) (w : World)
  : outcome dict * World :=
  let w := reset_shutdown_timer w in
  if negb (model_loaded w) then
    (Raise (HTTPException 503 "Whisper model not loaded"), w)
  else
    let file_ext := file_ext_of (file req) in
    if negb (mem file_ext allowed_extensions) then
      (Raise (HTTPException 400
                ("Invalid file type. Allowed extensions: "
                 ++ join ", " allowed_extensions)), w)
    else
      let '(r, locals, w) := try_body env req file_ext w in
      (* except Exception as e *)
      let '(r, w) :=
        match r with
        | Ret content => (Ret content, w)
        | Raise e =>
            (Raise (HTTPException 500 ("Transcription failed: " ++ str_exn e)),
             logger (ErrorTranscription (str_exn e)) w)
        end in
      (* finally: an exception raised here replaces the pending outcome *)
      match finally_block env locals w with
      | (Ret _, w) => (r, w)
      | (Raise e, w) => (Raise e, w)
      end.

(** ** Vocabulary of the statements *)

(** A finite double: a value a Python [float] can hold, NaN and the
    infinities apart. *)
Definition finite_double (x : float) : Prop :=
  exists n, x = Fin n /\ is_double n.

Definition finite_doubleb (x : float) : bool :=
  match x with
  | Fin n => is_doubleb n
  | _ => false
  end.

Definition is_digit (c : ascii) : bool :=
  ((48 <=? nat_of_ascii c) && (nat_of_ascii c <=? 57))%nat.

Fixpoint string_forall (p : ascii -> bool) (s : string) : bool :=
  match s with
  | EmptyString => true
  | String c s' => p c && string_forall p s'
  end.

Definition all_digits (s : string) : bool := string_forall is_digit s.

Definition digit_or_colon (c : ascii) : bool := is_digit c || Ascii.eqb c ":".

(** Doubles used as bounds: half of [MAX], [2^1023], and the rounded
    product of [1000] and the largest double below [1]. *)
Definition HM : Z := (2 ^ 53 - 1) * 2 ^ 2044.
Definition P97 : Z := 2 ^ 2097.
Definition MS999 : Z := 1000 * U - 2 ^ 1031.

(** The string a formatter returns, where it returns one. *)
Definition srt_time (x : float) : string :=
  match format_timestamp_srt x with
  | Ret s => s
  | Raise _ => ""
  end.

Definition vtt_time (x : float) : string :=
  match format_timestamp_vtt x with
  | Ret s => s
  | Raise _ => ""
  end.




(** A request that gets as far as the inference call, which returns
    [result]: the model is loaded, the extension is allowed, the upload is
    copied to the temporary file [name]. *)
Definition served (env : Env) (req : Request) (w : World) (result : dict) : Prop :=
  model_loaded w = true /\
  mem (file_ext_of (file req)) allowed_extensions = true /\
  exists name content,
    NamedTemporaryFile env (file_ext_of (file req)) = Ret name /\
    read (file req) = Ret content /\
    write env name content = Ret tt /\
    model_transcribe env name (transcribe_options_of (language req)) = Ret result.

(** What happens to the process over time: a request (to [/health] or
    [/transcribe]) arrives at time [t] and resets the timer, or nothing
    happens until [t]. *)
Inductive event : Type :=
| Request_at (t : Z)
| Wait_until (t : Z).

Definition step (w : World) (e : event) : World :=
  match e with
  | Request_at t => reset_shutdown_timer (advance t w)
  | Wait_until t => advance t w
  end.

Definition run (events : list event) (w : World) : World :=
  fold_left step events w.

(** The process right after a successful startup at time [0]. *)
Definition started (timeout : Z) : World :=
  snd (load_model (Ret tt) (mk_world 0 timeout false 0 None 0 [] [])).

(** No timer is pending: none was started, or the one held is finished. *)
Definition disarmed (w : World) : Prop :=
  match shutdown_timer w with
  | Some tm => finished tm = true
  | None => True
  end.

(** ** Comparison with the Standard Library's specification floats *)

Definition to_spec (x : float) : spec_float :=
  match x with
  | Fin 0 => S754_zero false
  | Fin (Zpos p) => S754_finite false p (-1074)
  | Fin (Zneg p) => S754_finite true p (-1074)
  | Inf s => S754_infinity s
  | NaN => S754_nan
  end.

Definition of_spec (x : spec_float) : float :=
  match x with
  | S754_zero _ => Fin 0
  | S754_infinity s => Inf s
  | S754_nan => NaN
  | S754_finite s m e => Fin ((if s then -1 else 1) * Zpos m * 2 ^ (e + 1074))
  end.

Definition float_eqb (x y : float) : bool :=
  match x, y with
  | Fin a, Fin b => a =? b
  | Inf s, Inf t => Bool.eqb s t
  | NaN, NaN => true
  | _, _ => false
  end.

(** Does the operation [f] of [Double] return what the operation [g] of
    [SpecFloat] returns at binary64, on [x] and [y]? *)
Definition agrees (f : float -> float -> float)
    (g : spec_float -> spec_float -> spec_float) (x y : float) : bool :=
  float_eqb (f x y) (of_spec (g (to_spec x) (to_spec y))).

(** Pairs of doubles of several kinds: 0.015 and 1000 (the product of the
    milliseconds), 360000 and 3600, -1.5 and 3600, the smallest subnormal
    and 0.015 (underflow), the largest double with itself (overflow), the
    largest double below 1 and 1000. *)
Definition sample_pairs : list (float * float) :=
  [(of_bits 8646911284551352 (-59), of_int 1000);
   (of_int 360000, of_int 3600);
   (of_bits (-3) (-1), of_int 3600);
   (of_bits 1 (-1074), of_bits 8646911284551352 (-59));
   (of_bits (2 ^ 53 - 1) 971, of_bits (2 ^ 53 - 1) 971);
   (of_bits (2 ^ 53 - 1) (-53), of_int 1000)].

Definition on_samples (f : float -> float -> bool) : bool :=
  forallb (fun xy => f (fst xy) (snd xy)) sample_pairs.

(** ** Examples *)

Definition example_segment : Segment :=
  mk_segment (of_bits 131 (-1)) (of_bits 281 (-2)) " hello "
    [("id", JNum (of_int 0))].

Definition example_result : dict :=
  [("text", VJson (JStr " hello "));
   ("segments", VSegments [example_segment]);
   ("language", VJson (JStr "en"))].

(** Collaborators that all succeed. *)
Definition example_env : Env :=
  mk_env (fun suffix => Ret ("/tmp/tmpk3s9" ++ suffix))
         (fun _ _ => Ret tt)
         (fun _ _ => Ret example_result)
         (fun _ => Ret tt).

(** The same, on a full disk: writing the upload raises. *)
Definition disk_full_env : Env :=
  mk_env (fun suffix => Ret ("/tmp/tmpk3s9" ++ suffix))
         (fun _ _ => Raise (Exc "OSError" "[Errno 28] No space left on device"))
         (fun _ _ => Ret example_result)
         (fun _ => Ret tt).

Definition example_request (name : string) (fmt : option string) : Request :=
  mk_request (mk_upload (Some name) (Ret "ID3")) None fmt.

(** ** Vocabulary of the further properties *)

(** What the process goes through, with the handlers themselves: a health
    check or a transcription request arriving at time [t], or nothing
    happening until [t]. *)
Inductive activity : Type :=
| Health_at (t : Z) (WHISPER_MODEL : string)
| Transcribe_at (t : Z) (env : Env) (req : Request)
| Idle_until (t : Z).

Definition serve (w : World) (a : activity) : World :=
  match a with
  | Health_at t m => snd (health m (advance t w))
  | Transcribe_at t env req => snd (transcribe env req (advance t w))
  | Idle_until t => advance t w
  end.

Definition serve_all (l : list activity) (w : World) : World :=
  fold_left serve l w.

Definition is_request (a : activity) : bool :=
  match a with
  | Idle_until _ => false
  | _ => true
  end.

Definition time_of (a : activity) : Z :=
  match a with
  | Health_at t _ | Transcribe_at t _ _ | Idle_until t => t
  end.

(** Two states of the process that differ at most in the temporary files
    on disk and in the log. *)
Definition same_process (w w' : World) : Prop :=
  sigterms w' = sigterms w /\
  shutdown_timer w' = shutdown_timer w /\
  last_request_time w' = last_request_time w /\
  model_loaded w' = model_loaded w /\
  clock w' = clock w /\
  IDLE_TIMEOUT w' = IDLE_TIMEOUT w.





(** NaN or an infinity. *)
Definition non_finite (x : float) : Prop := x = NaN \/ exists neg, x = Inf neg.

(** A segment one of whose timestamps is not finite. *)
Definition non_finite_segment (segment : Segment) : Prop :=
  non_finite (seg_start segment) \/ non_finite (seg_end segment).

(** A value a Python float can hold. *)
Definition is_float (x : float) : Prop := finite_double x \/ non_finite x.

Definition float_segment (segment : Segment) : Prop :=
  is_float (seg_start segment) /\ is_float (seg_end segment).

(** The exception [int()] raises on a NaN. *)
Definition nan_to_integer : exn :=
  Exc "ValueError" "cannot convert float NaN to integer".


Definition nan_result : dict :=
  [("text", VJson (JStr " hello "));
   ("segments", VSegments [example_segment;
                           mk_segment (of_int 2) NaN " world" []])].

Definition nan_env : Env :=
  mk_env (fun suffix => Ret ("/tmp/tmpk3s9" ++ suffix))
         (fun _ _ => Ret tt)
         (fun _ _ => Ret nan_result)
         (fun _ => Ret tt).

(** Does the string start, or end, with a whitespace character? *)
Definition starts_with_space (s : string) : bool :=
  match s with
  | EmptyString => false
  | String c _ => isspace c
  end.

Fixpoint ends_with_space (s : string) : bool :=
  match s with
  | EmptyString => false
  | String c EmptyString => isspace c
  | String _ s' => ends_with_space s'
  end.

(** The number a string of decimal digits reads as, after [acc]. *)
Fixpoint decimal_value (s : string) (acc : Z) : Z :=
  match s with
  | EmptyString => acc
  | String c s' => decimal_value s' (10 * acc + (Z.of_nat (nat_of_ascii c) - 48))
  end.

(** * Properties *)

(** ** Rounding to nearest even *)

Lemma U_pos : 0 < U.
Proof. unfold U. apply Z.pow_pos_nonneg; lia. Qed.

(** The large constants are only ever computed with by [vm_compute]. *)
Opaque U MAX HM P97 MS999.

Lemma rne_lower n d : 0 < d -> n / d <= rne n d.
Proof.
  intros Hd. unfold rne.
  destruct (2 * (n mod d) ?= d); [destruct (Z.even (n / d))|..]; lia.
Qed.

Lemma rne_upper n d : 0 < d -> rne n d <= n / d + 1.
Proof.
  intros Hd. unfold rne.
  destruct (2 * (n mod d) ?= d); [destruct (Z.even (n / d))|..]; lia.
Qed.

Lemma rne_exact n d : 0 < d -> n mod d = 0 -> rne n d = n / d.
Proof.
  intros Hd H. unfold rne. rewrite H.
  destruct (Z.compare_spec (2 * 0) d); lia.
Qed.

Lemma div_cross_mono a b c d :
  0 < b -> 0 < d -> a * d <= c * b -> a / b <= c / d.
Proof.
  intros Hb Hd H. apply Z.div_le_lower_bound; [lia|].
  pose proof (Z.mul_div_le a b Hb).
  nia.
Qed.

Lemma rne_mono a b c d :
  0 < b -> 0 < d -> a * d <= c * b -> rne a b <= rne c d.
Proof.
  intros Hb Hd H.
  pose proof (div_cross_mono a b c d Hb Hd H) as Hq.
  pose proof (rne_lower c d Hd). pose proof (rne_upper a b Hb).
  destruct (Z.eq_dec (a / b) (c / d)) as [E|NE]; [|lia].
  pose proof (Z.div_mod a b ltac:(lia)) as Ha.
  pose proof (Z.div_mod c d ltac:(lia)) as Hc.
  pose proof (Z.mod_pos_bound a b Hb).
  pose proof (Z.mod_pos_bound c d Hd).
  assert (Hr : (a mod b) * d <= (c mod d) * b) by (rewrite E in Ha; nia).
  unfold rne. rewrite E.
  destruct (Z.compare_spec (2 * (a mod b)) b);
    destruct (Z.compare_spec (2 * (c mod d)) d);
    destruct (Z.even (c / d)); try lia; nia.
Qed.

Lemma pow2_pos k : 0 < 2 ^ k \/ k < 0.
Proof. destruct (Z_lt_le_dec k 0); [right; lia | left; apply Z.pow_pos_nonneg; lia]. Qed.

Lemma ulp_exp_nonneg n d : 0 <= ulp_exp n d.
Proof. unfold ulp_exp. lia. Qed.

Lemma log2_lt_pow2 q : 0 <= q -> q < 2 ^ (Z.log2 q + 1).
Proof.
  intros Hq. destruct (Z.eq_dec q 0) as [->|Hn].
  - simpl. lia.
  - pose proof (Z.log2_spec q ltac:(lia)). replace (Z.log2 q + 1) with (Z.succ (Z.log2 q)) by lia. lia.
Qed.

Lemma round_upper n d :
  0 <= n -> 0 < d -> round n d <= 2 ^ (Z.log2 (n / d) + 1).
Proof.
  intros Hn Hd. unfold round.
  assert (Hk := ulp_exp_nonneg n d).
  set (k := ulp_exp n d) in *.
  assert (Hq : 0 <= n / d) by (apply Z.div_pos; lia).
  set (e := Z.log2 (n / d)).
  assert (He : 0 <= e) by apply Z.log2_nonneg.
  assert (Hke : k <= e + 1).
  { unfold k, ulp_exp. rewrite (Z.abs_eq n) by lia. fold e. lia. }
  assert (Hpk : 0 < 2 ^ k) by (apply Z.pow_pos_nonneg; lia).
  replace (2 ^ (e + 1)) with (2 ^ (e + 1 - k) * 2 ^ k)
    by (rewrite <- Z.pow_add_r by lia; f_equal; lia).
  apply Z.mul_le_mono_nonneg_r; [lia|].
  assert (Hpb : 0 < 2 ^ (e + 1 - k)) by (apply Z.pow_pos_nonneg; lia).
  pose proof (rne_upper n (d * 2 ^ k) ltac:(nia)) as Hu.
  assert (n / (d * 2 ^ k) < 2 ^ (e + 1 - k)); [|lia].
  apply Z.div_lt_upper_bound; [nia|].
  pose proof (log2_lt_pow2 (n / d) Hq) as Hlt. fold e in Hlt.
  assert (n < d * 2 ^ (e + 1)).
  { pose proof (Z.div_mod n d ltac:(lia)). pose proof (Z.mod_pos_bound n d Hd). nia. }
  replace (2 ^ (e + 1)) with (2 ^ (e + 1 - k) * 2 ^ k) in H
    by (rewrite <- Z.pow_add_r by lia; f_equal; lia).
  nia.
Qed.

Lemma round_lower n d :
  0 <= n -> 0 < d -> 52 <= Z.log2 (n / d) -> 2 ^ Z.log2 (n / d) <= round n d.
Proof.
  intros Hn Hd He. unfold round.
  set (e := Z.log2 (n / d)) in *.
  assert (Hk : ulp_exp n d = e - 52).
  { unfold ulp_exp. rewrite (Z.abs_eq n) by lia. fold e. lia. }
  rewrite Hk.
  assert (Hpk : 0 < 2 ^ (e - 52)) by (apply Z.pow_pos_nonneg; lia).
  replace (2 ^ e) with (2 ^ 52 * 2 ^ (e - 52))
    by (rewrite <- Z.pow_add_r by lia; f_equal; lia).
  apply Z.mul_le_mono_nonneg_r; [lia|].
  pose proof (rne_lower n (d * 2 ^ (e - 52)) ltac:(nia)) as Hl.
  assert (2 ^ 52 <= n / (d * 2 ^ (e - 52))); [|lia].
  apply Z.div_le_lower_bound; [nia|].
  assert (Hq : 0 < n / d).
  { destruct (Z.eq_dec (n / d) 0) as [E|NE].
    - unfold e in He. rewrite E in He. simpl in He. lia.
    - pose proof (Z.div_pos n d Hn Hd). lia. }
  pose proof (Z.log2_spec (n / d) Hq) as [Hlo _]. fold e in Hlo.
  replace (2 ^ e) with (2 ^ 52 * 2 ^ (e - 52)) in Hlo
    by (rewrite <- Z.pow_add_r by lia; f_equal; lia).
  pose proof (Z.mul_div_le n d Hd).
  nia.
Qed.

Lemma round_mono a b c d :
  0 <= a -> 0 < b -> 0 < d -> a * d <= c * b -> round a b <= round c d.
Proof.
  intros Ha Hb Hd H.
  assert (Hc : 0 <= c) by nia.
  pose proof (div_cross_mono a b c d Hb Hd H) as Hq.
  assert (Hqa : 0 <= a / b) by (apply Z.div_pos; lia).
  pose proof (Z.log2_le_mono _ _ Hq) as He.
  pose proof (Z.log2_nonneg (a / b)) as He0.
  destruct (Z.eq_dec (ulp_exp a b) (ulp_exp c d)) as [E|NE].
  - unfold round. rewrite E.
    set (k := ulp_exp c d).
    assert (Hpk : 0 < 2 ^ k) by (apply Z.pow_pos_nonneg; [lia | apply ulp_exp_nonneg]).
    apply Z.mul_le_mono_nonneg_r; [lia|].
    apply rne_mono; nia.
  - unfold ulp_exp in NE. rewrite (Z.abs_eq a), (Z.abs_eq c) in NE by lia.
    assert (H52 : 52 <= Z.log2 (c / d)) by lia.
    assert (Hlt : Z.log2 (a / b) + 1 <= Z.log2 (c / d)) by lia.
    pose proof (round_upper a b Ha Hb).
    pose proof (round_lower c d Hc Hd H52).
    pose proof (Z.pow_le_mono_r 2 _ _ ltac:(lia) Hlt).
    lia.
Qed.

Lemma round_0 d : 0 < d -> round 0 d = 0.
Proof.
  intros Hd. unfold round, ulp_exp. simpl (Z.abs 0). rewrite Z.div_0_l by lia.
  simpl. unfold rne. rewrite Z.div_0_l, Z.mod_0_l by lia.
  destruct (Z.compare_spec (2 * 0) (d * 1)); lia.
Qed.

Lemma round_nonneg n d : 0 <= n -> 0 < d -> 0 <= round n d.
Proof.
  intros Hn Hd. rewrite <- (round_0 d Hd). apply round_mono; nia.
Qed.

(** A number with at most 53 significant bits is its own rounding. *)
Lemma round_exact n : (2 ^ ulp_exp n 1 | n) -> round n 1 = n.
Proof.
  intros [m Hm]. unfold round.
  set (k := ulp_exp n 1) in *.
  assert (Hpk : 0 < 2 ^ k) by (apply Z.pow_pos_nonneg; [lia | apply ulp_exp_nonneg]).
  rewrite Z.mul_1_l, rne_exact by (try lia; rewrite Hm; apply Z.mod_mul; lia).
  rewrite Hm at 1. rewrite Z.div_mul by lia. lia.
Qed.

(** Rounding a fraction that is a whole number of units. *)
Lemma round_scale n d : 0 < d -> round (n * d) d = round n 1.
Proof.
  intros Hd. unfold round, ulp_exp.
  rewrite Z.abs_mul, (Z.abs_eq d) by lia.
  rewrite Z.div_mul, Z.div_1_r by lia.
  set (k := Z.max 0 (Z.log2 (Z.abs n) - 52)).
  assert (Hpk : 0 < 2 ^ k) by (apply Z.pow_pos_nonneg; lia).
  f_equal. unfold rne.
  rewrite Z.mul_1_l.
  replace (n * d) with (d * n) by lia.
  rewrite Z.div_mul_cancel_l, Z.mul_mod_distr_l by lia.
  destruct (Z.compare_spec (2 * (n mod 2 ^ k)) (2 ^ k));
    destruct (Z.compare_spec (2 * (d * (n mod 2 ^ k))) (d * 2 ^ k)); try reflexivity; nia.
Qed.

Lemma rne_opp n d : 0 < d -> rne (- n) d = - rne n d.
Proof.
  intros Hd. unfold rne.
  pose proof (Z.div_mod n d ltac:(lia)) as Hn.
  pose proof (Z.mod_pos_bound n d Hd) as Hr.
  destruct (Z.eq_dec (n mod d) 0) as [E|NE].
  - rewrite Z.mod_opp_l_z, Z.div_opp_l_z, E by lia.
    destruct (Z.compare_spec (2 * 0) d); lia.
  - rewrite Z.mod_opp_l_nz, Z.div_opp_l_nz by lia.
    replace (- (n / d) - 1) with (- (n / d + 1)) by lia.
    rewrite Z.even_opp. replace (n / d + 1) with (Z.succ (n / d)) by lia.
    rewrite Z.even_succ, <- Z.negb_even.
    destruct (Z.compare_spec (2 * (d - n mod d)) d);
      destruct (Z.compare_spec (2 * (n mod d)) d); try lia;
      destruct (Z.even (n / d)); simpl; lia.
Qed.

Lemma round_opp n d : 0 < d -> round (- n) d = - round n d.
Proof.
  intros Hd. unfold round, ulp_exp. rewrite Z.abs_opp.
  set (k := Z.max 0 (Z.log2 (Z.abs n / d) - 52)).
  assert (Hpk : 0 < 2 ^ k) by (apply Z.pow_pos_nonneg; lia).
  rewrite rne_opp by nia. lia.
Qed.

Lemma round_nonpos n d : n <= 0 -> 0 < d -> round n d <= 0.
Proof.
  intros Hn Hd. replace n with (- - n) by lia. rewrite round_opp by lia.
  pose proof (round_nonneg (- n) d ltac:(lia) Hd). lia.
Qed.

(** Rounding is monotone (on fractions [a / b <= c / d]). *)
Lemma round_le a b c d :
  0 < b -> 0 < d -> a * d <= c * b -> round a b <= round c d.
Proof.
  intros Hb Hd H.
  destruct (Z_le_gt_dec 0 a) as [Ha|Ha].
  - apply round_mono; assumption.
  - destruct (Z_le_gt_dec 0 c) as [Hc|Hc].
    + pose proof (round_nonpos a b ltac:(lia) Hb).
      pose proof (round_nonneg c d Hc Hd). lia.
    + replace a with (- - a) by lia. replace c with (- - c) by lia.
      rewrite (round_opp (- a)), (round_opp (- c)) by lia.
      pose proof (round_mono (- c) d (- a) b ltac:(lia) Hd Hb ltac:(lia)). lia.
Qed.

Lemma MAX_pos : 0 < MAX.
Proof. reflexivity. Qed.

(** A rounding between two doubles is finite. *)
Lemma rnd_fin lo a d hi :
  0 < d -> lo * d <= a -> a <= hi * d ->
  round lo 1 = lo -> round hi 1 = hi -> - MAX <= lo -> hi <= MAX ->
  rnd a d = Fin (round a d) /\ lo <= round a d <= hi.
Proof.
  intros Hd Hlo Hhi Elo Ehi Blo Bhi.
  pose proof (round_le lo 1 a d ltac:(lia) Hd ltac:(lia)) as H1.
  pose proof (round_le a d hi 1 Hd ltac:(lia) ltac:(lia)) as H2.
  rewrite Elo in H1. rewrite Ehi in H2.
  split; [|lia]. unfold rnd.
  destruct (Z.ltb_spec MAX (Z.abs (round a d))); [lia | reflexivity].
Qed.

Lemma round_MAX : round MAX 1 = MAX. Proof. vm_compute. reflexivity. Qed.
Lemma round_mMAX : round (- MAX) 1 = - MAX. Proof. vm_compute. reflexivity. Qed.
Lemma round_U : round U 1 = U. Proof. vm_compute. reflexivity. Qed.
Lemma round_zero : round 0 1 = 0. Proof. reflexivity. Qed.
Lemma round_HM : round HM 1 = HM. Proof. vm_compute. reflexivity. Qed.
Lemma round_mHM : round (- HM) 1 = - HM. Proof. vm_compute. reflexivity. Qed.
Lemma HM_MAX : 2 * HM = MAX. Proof. vm_compute. reflexivity. Qed.
Lemma U_HM : 2 * U <= HM. Proof. vm_compute. discriminate. Qed.
Lemma U_eq : U = 2 ^ 1074. Proof. reflexivity. Qed.
Lemma round_mP97 : round (- P97) 1 = - P97. Proof. vm_compute. reflexivity. Qed.

(** The constants that are doubles. *)
Ltac double_const :=
  first [ exact round_zero | exact round_MAX | exact round_mMAX | exact round_U
        | exact round_HM | exact round_mHM | exact round_mP97 ].
Lemma half_eq : 2 * 2 ^ 1073 = U. Proof. reflexivity. Qed.

(** ** Python's float operators *)

Lemma U53_MAX : 2 ^ 53 * U <= MAX.
Proof. vm_compute. discriminate. Qed.

(** An integer below [2^53] is a double. *)
Lemma round_int m : 0 <= m < 2 ^ 53 -> round (m * U) 1 = m * U.
Proof.
  intros Hm. apply round_exact.
  pose proof U_pos.
  destruct (Z.eq_dec m 0) as [->|Hn]; [apply Z.divide_0_r|].
  assert (Hlog : Z.log2 (m * U) < 1127).
  { apply Z.log2_lt_pow2; [nia|].
    replace (2 ^ 1127) with (2 ^ 53 * U) by (rewrite U_eq, <- Z.pow_add_r by lia; reflexivity).
    nia. }
  unfold ulp_exp. rewrite Z.div_1_r, Z.abs_eq by nia.
  set (k := Z.max 0 (Z.log2 (m * U) - 52)).
  apply Z.divide_mul_r. rewrite U_eq.
  exists (2 ^ (1074 - k)). rewrite <- Z.pow_add_r by lia. f_equal. lia.
Qed.

Lemma float_rem_nonneg n c :
  0 <= n -> 0 < c -> float_rem (Fin n) (Fin c) = Ret (Fin (n mod c)).
Proof.
  intros Hn Hc. unfold float_rem, fmod, nonzero, ltb, zero.
  rewrite Z.rem_mod_nonneg by lia.
  pose proof (Z.mod_pos_bound n c Hc).
  destruct (Z.eqb_spec c 0); [lia|]. simpl.
  destruct (Z.eqb_spec (n mod c) 0) as [->|]; simpl; [reflexivity|].
  destruct (Z.ltb_spec c 0); [lia|].
  destruct (Z.ltb_spec (n mod c) 0); [lia|]. reflexivity.
Qed.

(** Below [2^53] the quotient is computed without any rounding. *)
Lemma float_floor_div_exact n c :
  0 <= n < 2 ^ 53 * U -> 0 < c ->
  float_floor_div (Fin n) (Fin (c * U)) = Ret (Fin (n / (c * U) * U)).
Proof.
  intros Hn Hc. pose proof U_pos as HU. pose proof U53_MAX as HMAX.
  assert (HW : 0 < c * U) by nia.
  set (q := n / (c * U)).
  assert (Hq : 0 <= q) by (apply Z.div_pos; lia).
  assert (Hqn : c * q * U <= n).
  { pose proof (Z.mul_div_le n (c * U) HW). fold q in H. lia. }
  assert (Hq53 : 0 <= c * q < 2 ^ 53) by nia.
  assert (Hq53' : 0 <= q < 2 ^ 53) by nia.
  unfold float_floor_div, fmod, nonzero, ltb, zero, sub, add, opp, div, one.
  rewrite Z.rem_mod_nonneg by lia.
  pose proof (Z.mod_pos_bound n (c * U) HW) as Hr.
  destruct (Z.eqb_spec (c * U) 0); [lia|]. simpl negb. cbv iota.
  assert (Esub : n + - (n mod (c * U)) = c * q * U).
  { pose proof (Z.div_mod n (c * U) ltac:(lia)). fold q in H. lia. }
  rewrite Esub.
  assert (Et : rnd (c * q * U) 1 = Fin (c * q * U)).
  { unfold rnd. rewrite round_int by lia.
    destruct (Z.ltb_spec MAX (Z.abs (c * q * U))); [nia | reflexivity]. }
  rewrite Et.
  rewrite Z.sgn_pos, Z.abs_eq, Z.mul_1_l by lia.
  assert (Ed : rnd (c * q * U * U) (c * U) = Fin (q * U)).
  { unfold rnd. replace (c * q * U * U) with (q * U * (c * U)) by lia.
    rewrite round_scale, round_int by lia.
    destruct (Z.ltb_spec MAX (Z.abs (q * U))); [nia | reflexivity]. }
  rewrite Ed.
  destruct (Z.ltb_spec (c * U) 0); [lia|].
  destruct (Z.ltb_spec (n mod (c * U)) 0); [lia|].
  replace (negb (n mod (c * U) =? 0) && negb (Bool.eqb false false)) with false
    by (simpl; rewrite andb_false_r; reflexivity).
  destruct (Z.eqb_spec (q * U) 0) as [E0|N0]; simpl negb; cbv iota.
  - rewrite E0. reflexivity.
  - unfold floor. rewrite Z.div_mul by lia.
    replace (q * U + - (q * U)) with 0 by lia.
    change (rnd 0 1) with (Fin 0).
    destruct (Z.ltb_spec (2 ^ 1073) 0); [|reflexivity].
    pose proof half_eq. lia.
Qed.

Lemma P97_bounds : HM + U <= P97 /\ P97 + U <= MAX. Proof. vm_compute. split; discriminate. Qed.

Lemma float_floor_div_nonneg n c m :
  0 <= n <= MAX -> 2 <= c ->
  0 <= m -> m * c < 2 ^ 53 -> m * c * U <= n - n mod (c * U) ->
  exists h, float_floor_div (Fin n) (Fin (c * U)) = Ret (Fin h) /\ m * U <= h.
Proof.
  intros Hn Hc Hm Hmc Hmn.
  pose proof U_pos as HU. pose proof HM_MAX as HHM. pose proof U_HM as HUHM.
  pose proof U53_MAX as H53.
  assert (HW : 0 < c * U) by nia.
  assert (Em : round (m * U) 1 = m * U) by (apply round_int; nia).
  assert (Emc : round (m * c * U) 1 = m * c * U) by (apply round_int; nia).
  unfold float_floor_div, fmod, nonzero, ltb, zero, sub, add, opp, div, one, half.
  rewrite Z.rem_mod_nonneg by lia.
  pose proof (Z.mod_pos_bound n (c * U) HW) as Hr.
  pose proof (Z.mod_le n (c * U) ltac:(lia) HW) as Hrn.
  destruct (Z.eqb_spec (c * U) 0); [lia|]. simpl negb. cbv iota.
  assert (Ht : rnd (n + - (n mod (c * U))) 1 = Fin (round (n + - (n mod (c * U))) 1)
               /\ m * c * U <= round (n + - (n mod (c * U))) 1 <= MAX).
  { apply rnd_fin; try nia; try double_const; exact Emc. }
  destruct Ht as [-> Ht].
  set (t := round (n + - (n mod (c * U))) 1) in *.
  rewrite Z.sgn_pos, Z.abs_eq, Z.mul_1_l by lia.
  assert (Hd : rnd (t * U) (c * U) = Fin (round (t * U) (c * U))
               /\ m * U <= round (t * U) (c * U) <= HM).
  { assert (t <= c * HM) by nia.
    assert (m * U * c <= t) by lia.
    apply rnd_fin; try nia; try double_const; exact Em. }
  destruct Hd as [-> Hd].
  set (dv := round (t * U) (c * U)) in *.
  destruct (Z.ltb_spec (c * U) 0); [lia|].
  destruct (Z.ltb_spec (n mod (c * U)) 0); [lia|].
  replace (negb (n mod (c * U) =? 0) && negb (Bool.eqb false false)) with false
    by (simpl; rewrite andb_false_r; reflexivity).
  destruct (Z.eqb_spec dv 0) as [E0|N0]; simpl negb; cbv iota.
  - exists 0. split; [reflexivity | lia].
  - unfold floor.
    pose proof (Z.mul_div_le dv U HU) as Hfl.
    pose proof (Z.mod_pos_bound dv U HU) as Hfm.
    pose proof (Z.div_mod dv U ltac:(lia)) as Hfe.
    assert (Hfl0 : m <= dv / U) by (apply Z.div_le_lower_bound; lia).
    assert (Hc1 : rnd (dv + - (dv / U * U)) 1 = Fin (round (dv + - (dv / U * U)) 1)
                  /\ 0 <= round (dv + - (dv / U * U)) 1 <= U).
    { apply rnd_fin; try lia; try double_const. }
    destruct Hc1 as [-> Hc1].
    destruct (2 ^ 1073 <? round (dv + - (dv / U * U)) 1).
    + assert (Hc2 : rnd (dv / U * U + U) 1 = Fin (round (dv / U * U + U) 1)
                    /\ m * U <= round (dv / U * U + U) 1 <= MAX).
      { apply rnd_fin; try nia; try double_const; exact Em. }
      destruct Hc2 as [-> Hc2].
      eexists; split; [reflexivity | lia].
    + eexists; split; [reflexivity | nia].
Qed.

Lemma float_floor_div_neg n c :
  - MAX <= n < 0 -> 2 <= c ->
  exists h, float_floor_div (Fin n) (Fin (c * U)) = Ret (Fin h).
Proof.
  intros Hn Hc. pose proof U_pos as HU. pose proof HM_MAX as HHM. pose proof U_HM as HUHM.
  pose proof P97_bounds as HP.
  assert (HW : 0 < c * U) by nia.
  unfold float_floor_div, fmod, nonzero, ltb, zero, sub, add, opp, div, one, half.
  assert (Er : Z.rem n (c * U) = - ((- n) mod (c * U))).
  { rewrite <- Z.rem_mod_nonneg, Z.rem_opp_l' by lia. lia. }
  pose proof (Z.mod_pos_bound (- n) (c * U) HW) as Hr.
  pose proof (Z.mod_le (- n) (c * U) ltac:(lia) HW) as Hrn.
  rewrite Er.
  set (r := - ((- n) mod (c * U))) in *.
  destruct (Z.eqb_spec (c * U) 0); [lia|]. simpl negb. cbv iota.
  destruct (rnd_fin (- MAX) (n + - r) 1 0) as [-> Ht];
    try lia; try double_const.
  set (t := round (n + - r) 1) in *.
  rewrite Z.sgn_pos, Z.abs_eq, Z.mul_1_l by lia.
  destruct (rnd_fin (- HM) (t * U) (c * U) 0) as [-> Hd];
    try nia; try double_const.
  set (dv := round (t * U) (c * U)) in *.
  assert (Hsub : forall x, - P97 <= x <= 0 ->
            rnd (x + - (x / U * U)) 1 = Fin (round (x + - (x / U * U)) 1)).
  { intros x Hx.
    pose proof (Z.mul_div_le x U HU) as Hfl.
    pose proof (Z.mod_pos_bound x U HU) as Hfm.
    pose proof (Z.div_mod x U ltac:(lia)) as Hfe.
    destruct (rnd_fin 0 (x + - (x / U * U)) 1 U) as [-> Hc1];
      try lia; try double_const; reflexivity. }
  assert (Hadd : forall x, - P97 <= x <= 0 ->
            rnd (x / U * U + U) 1 = Fin (round (x / U * U + U) 1)).
  { intros x Hx.
    pose proof (Z.mul_div_le x U HU) as Hfl.
    pose proof (Z.mod_pos_bound x U HU) as Hfm.
    pose proof (Z.div_mod x U ltac:(lia)) as Hfe.
    destruct (rnd_fin (- P97) (x / U * U + U) 1 U) as [-> Hc2];
      try lia; try double_const; reflexivity. }
  assert (Hend : forall x, - P97 <= x <= 0 ->
    exists h, (if negb (x =? 0)
               then let floordiv := floor (Fin x) in
                    if ltb (Fin (2 ^ 1073)) (sub (Fin x) floordiv)
                    then Ret (add floordiv (Fin U)) else Ret floordiv
               else Ret (Fin 0)) = Ret (Fin h)).
  { intros x Hx. cbv zeta. unfold floor, sub, add, opp, ltb.
    rewrite Hsub, Hadd by assumption.
    destruct (negb (x =? 0)); [|eexists; reflexivity].
    destruct (2 ^ 1073 <? _); eexists; reflexivity. }
  destruct (Z.ltb_spec (c * U) 0); [lia|].
  destruct (Z.eqb_spec r 0) as [E0|N0].
  - simpl andb. cbv iota.
    destruct (Hend dv ltac:(lia)) as [h Hh]. exists h.
    cbv zeta in Hh. unfold floor, sub, add, opp, ltb in Hh. exact Hh.
  - destruct (Z.ltb_spec r 0); [|lia]. simpl andb. cbv iota.
    assert (Hd2 : rnd (dv + - U) 1 = Fin (round (dv + - U) 1)
                  /\ - P97 <= round (dv + - U) 1 <= 0).
    { apply rnd_fin; try lia; try double_const. }
    destruct Hd2 as [-> Hd2].
    destruct (Hend (round (dv + - U) 1) ltac:(lia)) as [h Hh]. exists h.
    cbv zeta in Hh. unfold floor, sub, add, opp, ltb in Hh. exact Hh.
Qed.

Lemma of_int_3600 : of_int 3600 = Fin (3600 * U). Proof. vm_compute. reflexivity. Qed.
Lemma of_int_60 : of_int 60 = Fin (60 * U). Proof. vm_compute. reflexivity. Qed.
Lemma of_int_1 : of_int 1 = Fin U. Proof. vm_compute. reflexivity. Qed.
Lemma of_int_1000 : of_int 1000 = Fin (1000 * U). Proof. vm_compute. reflexivity. Qed.

Lemma float_int_nonneg x : 0 <= x -> float_int (Fin x) = Ret (x / U).
Proof. intros Hx. pose proof U_pos. simpl. rewrite Z.quot_div_nonneg by lia. reflexivity. Qed.

Lemma float_rem_fin n c :
  0 < c -> round c 1 = c -> c <= MAX ->
  exists x, float_rem (Fin n) (Fin c) = Ret (Fin x) /\ 0 <= x <= c.
Proof.
  intros Hc Ec Bc.
  destruct (Z_le_gt_dec 0 n) as [Hn|Hn].
  - rewrite float_rem_nonneg by lia. pose proof (Z.mod_pos_bound n c Hc).
    eexists; split; [reflexivity | lia].
  - unfold float_rem, fmod, nonzero, ltb, zero, add.
    assert (Er : Z.rem n c = - ((- n) mod c)).
    { rewrite <- Z.rem_mod_nonneg, Z.rem_opp_l' by lia. lia. }
    pose proof (Z.mod_pos_bound (- n) c Hc) as Hr.
    rewrite Er. set (r := - ((- n) mod c)) in *.
    destruct (Z.eqb_spec c 0); [lia|]. simpl negb. cbv iota.
    destruct (Z.eqb_spec r 0) as [E0|N0]; simpl negb; cbv iota.
    + exists 0. split; [reflexivity | lia].
    + destruct (Z.ltb_spec c 0); [lia|].
      destruct (Z.ltb_spec r 0); [|lia]. simpl.
      assert (Hd : rnd (r + c) 1 = Fin (round (r + c) 1) /\ 0 <= round (r + c) 1 <= c).
      { pose proof MAX_pos. apply rnd_fin; try lia; try double_const. }
      destruct Hd as [-> Hd]. eexists; split; [reflexivity | lia].
Qed.

Lemma round_frac_max : round ((U - 2 ^ 1021) * (1000 * U)) U = MS999.
Proof. vm_compute. reflexivity. Qed.
Lemma MS999_bounds : 999 * U <= MS999 /\ MS999 < 1000 * U /\ 1000 * U <= MAX.
Proof. vm_compute. repeat split; discriminate. Qed.

(** The fractional part of a double is at most [1 - 2^-53]. *)
Lemma frac_bound n : is_double n -> 0 <= n -> n mod U <= U - 2 ^ 1021.
Proof.
  intros [[m Hm] _] Hn. pose proof U_pos as HU.
  pose proof (Z.mod_pos_bound n U HU) as Hr.
  set (k := ulp_exp n 1) in *.
  assert (Hk : 0 <= k) by apply ulp_exp_nonneg.
  assert (HU21 : U = 2 ^ 53 * 2 ^ 1021)
    by (rewrite U_eq, <- Z.pow_add_r by lia; f_equal).
  assert (H21 : 0 < 2 ^ 1021) by (apply Z.pow_pos_nonneg; lia).
  destruct (Z_lt_le_dec k 1021) as [Hlt|Hge].
  - (* fewer than 1073 bits: n < 1/2 *)
    assert (Z.log2 n < 1073).
    { unfold k, ulp_exp in Hlt. rewrite Z.div_1_r, Z.abs_eq in Hlt by lia. lia. }
    destruct (Z.eq_dec n 0) as [->|N0].
    + rewrite Z.mod_0_l by lia. nia.
    + apply Z.log2_lt_pow2 in H; [|lia].
      replace (2 ^ 1073) with (2 ^ 52 * 2 ^ 1021) in H
        by (rewrite <- Z.pow_add_r by lia; f_equal).
      rewrite Z.mod_small by (rewrite HU21; nia). nia.
  - destruct (Z_lt_le_dec k 1074) as [Hlt'|Hge'].
    + (* the fraction is a multiple of 2^k below 1 *)
      assert (H2k : 0 < 2 ^ k) by (apply Z.pow_pos_nonneg; lia).
      assert (HUk : U = 2 ^ (1074 - k) * 2 ^ k)
        by (rewrite <- Z.pow_add_r, U_eq by lia; f_equal; lia).
      assert (H21k : 2 ^ k = 2 ^ (k - 1021) * 2 ^ 1021)
        by (rewrite <- Z.pow_add_r by lia; f_equal; lia).
      assert (Hpk21 : 0 < 2 ^ (k - 1021)) by (apply Z.pow_pos_nonneg; lia).
      assert (Hdiv : (2 ^ k | n mod U)).
      { rewrite Z.mod_eq by lia. apply Z.divide_sub_r; [exists m; exact Hm|].
        apply Z.divide_mul_l. exists (2 ^ (1074 - k)). exact HUk. }
      destruct Hdiv as [j Hj].
      assert (j < 2 ^ (1074 - k)) by nia.
      nia.
    + (* a whole number *)
      assert (HkU : 2 ^ k = 2 ^ (k - 1074) * U)
        by (rewrite U_eq, <- Z.pow_add_r by lia; f_equal; lia).
      rewrite Hm, HkU, Z.mul_assoc, Z.mod_mul by lia. lia.
Qed.

Lemma mul_frac x :
  0 <= x <= U - 2 ^ 1021 ->
  exists p, mul (Fin x) (Fin (1000 * U)) = Fin p /\ 0 <= p < 1000 * U /\
            1000 * x / U <= p / U <= 1000 * x / U + 1.
Proof.
  intros Hx. pose proof U_pos as HU. pose proof MS999_bounds as HB.
  unfold mul.
  pose proof (round_le (x * (1000 * U)) U ((U - 2 ^ 1021) * (1000 * U)) U HU HU
                ltac:(nia)) as Hle.
  rewrite round_frac_max in Hle.
  pose proof (round_nonneg (x * (1000 * U)) U ltac:(nia) HU) as H0.
  exists (round (x * (1000 * U)) U). split; [|split; [lia|]].
  - unfold rnd.
    destruct (Z.ltb_spec MAX (Z.abs (round (x * (1000 * U)) U))); [lia|reflexivity].
  - (* the whole numbers on either side of the product are doubles *)
    set (k := 1000 * x / U).
    pose proof (Z.div_mod (1000 * x) U ltac:(lia)) as Hk.
    pose proof (Z.mod_pos_bound (1000 * x) U HU) as Hkm. fold k in Hk.
    assert (Hk0 : 0 <= k) by (apply Z.div_pos; lia).
    assert (Hk1 : k < 1000) by (apply Z.div_lt_upper_bound; nia).
    pose proof (round_le (k * U) 1 (x * (1000 * U)) U ltac:(lia) HU ltac:(nia)) as Hlo.
    pose proof (round_le (x * (1000 * U)) U ((k + 1) * U) 1 HU ltac:(lia) ltac:(nia)) as Hhi.
    rewrite round_int in Hlo, Hhi by lia.
    split.
    + apply Z.div_le_lower_bound; lia.
    + assert (round (x * (1000 * U)) U / U < k + 2); [|lia].
      apply Z.div_lt_upper_bound; nia.
Qed.

Lemma mul_fin x :
  0 <= x <= U -> exists p, mul (Fin x) (Fin (1000 * U)) = Fin p /\ 0 <= p.
Proof.
  intros Hx. pose proof U_pos as HU. pose proof MS999_bounds as HB.
  unfold mul.
  assert (Hp : rnd (x * (1000 * U)) U = Fin (round (x * (1000 * U)) U)
               /\ 0 <= round (x * (1000 * U)) U <= 1000 * U).
  { apply rnd_fin; try nia; try (apply round_int; lia); apply round_zero. }
  destruct Hp as [-> Hp]. eexists; split; [reflexivity | lia].
Qed.

(** ** The fields of a timestamp *)

Lemma round_3600 : round (3600 * U) 1 = 3600 * U. Proof. apply round_int. lia. Qed.
Lemma round_60 : round (60 * U) 1 = 60 * U. Proof. apply round_int. lia. Qed.
Lemma small_MAX c : 0 <= c <= 2 ^ 53 -> c * U <= MAX.
Proof. pose proof U53_MAX. pose proof U_pos. nia. Qed.

(** Every finite double has its four fields. *)
Lemma timestamp_fields_total n :
  Z.abs n <= MAX -> exists f, timestamp_fields (Fin n) = Ret f.
Proof.
  intros Hn. pose proof U_pos as HU. unfold timestamp_fields.
  rewrite of_int_3600, of_int_60, of_int_1, of_int_1000.
  assert (Hh : exists h, float_floor_div (Fin n) (Fin (3600 * U)) = Ret (Fin h)).
  { destruct (Z_le_gt_dec 0 n).
    - destruct (float_floor_div_nonneg n 3600 0) as [h [-> _]]; try lia.
      + pose proof (Z.mod_le n (3600 * U) ltac:(lia) ltac:(pose proof U_pos; lia)). lia.
      + eauto.
    - apply float_floor_div_neg; lia. }
  destruct Hh as [h ->]. cbn [bind]. cbn [bind].
  destruct (float_rem_fin n (3600 * U)) as [r [-> Hr]];
    [lia | apply round_3600 | apply small_MAX; lia |].
  cbn [bind].
  rewrite float_floor_div_exact by lia. cbn [bind]. cbn [bind].
  destruct (float_rem_fin n (60 * U)) as [r2 [-> Hr2]];
    [lia | apply round_60 | apply small_MAX; lia |].
  cbn [bind]. cbn [bind].
  destruct (float_rem_fin n U) as [x [-> Hx]];
    [lia | apply round_U | replace U with (1 * U) by lia; apply small_MAX; lia |].
  cbn [bind].
  destruct (mul_fin x Hx) as [p [-> Hp]].
  eexists. reflexivity.
Qed.

(** The fields of a non-negative double.  Minutes and seconds are exact;
    the hours are exact below [2^53] seconds; the milliseconds are the whole
    part of the rounded product, which is the whole part of the exact
    product or one more. *)
Lemma timestamp_fields_nonneg n :
  is_double n -> 0 <= n ->
  exists f,
    timestamp_fields (Fin n) = Ret f /\
    0 <= hours f /\
    (n < 2 ^ 53 * U -> hours f = n / (3600 * U)) /\
    (2 ^ 53 * U <= n -> 2 ^ 40 <= hours f) /\
    minutes f = n mod (3600 * U) / (60 * U) /\
    secs f = n mod (60 * U) / U /\
    (exists p, mul (Fin (n mod U)) (of_int 1000) = Fin p /\ 0 <= p /\ millis f = p / U) /\
    1000 * (n mod U) / U <= millis f <= 1000 * (n mod U) / U + 1 /\
    0 <= millis f <= 999.
Proof.
  intros Hd Hn. pose proof U_pos as HU. unfold timestamp_fields.
  rewrite of_int_3600, of_int_60, of_int_1, of_int_1000.
  pose proof (Z.mod_pos_bound n (3600 * U) ltac:(lia)) as Hr1.
  pose proof (Z.mod_pos_bound n (60 * U) ltac:(lia)) as Hr2.
  pose proof (Z.mod_pos_bound n U ltac:(lia)) as Hr3.
  assert (Hh : exists h, float_floor_div (Fin n) (Fin (3600 * U)) = Ret (Fin h) /\ 0 <= h
                         /\ (n < 2 ^ 53 * U -> h / U = n / (3600 * U))
                         /\ (2 ^ 53 * U <= n -> 2 ^ 40 <= h / U)).
  { destruct (Z_lt_le_dec n (2 ^ 53 * U)) as [Hlt|Hge].
    - rewrite float_floor_div_exact by lia. eexists. split; [reflexivity|].
      split; [|split; [intros _; apply Z.div_mul; lia | lia]].
      apply Z.mul_nonneg_nonneg; [apply Z.div_pos|]; lia.
    - destruct (float_floor_div_nonneg n 3600 (2 ^ 40)) as [h [Eh Hh]];
        try lia; [destruct Hd; lia|].
      exists h. split; [exact Eh|]. split; [lia|]. split; [lia|].
      intros _. apply Z.div_le_lower_bound; lia. }
  destruct Hh as [h [Eh [Hh0 [Hh1 Hh2]]]].
  destruct (mul_frac (n mod U)) as [p [Ep [Hp Hpf]]].
  { pose proof (frac_bound n Hd Hn). lia. }
  rewrite Eh. cbn [bind]. rewrite float_int_nonneg by lia. cbn [bind].
  rewrite float_rem_nonneg by lia. cbn [bind].
  rewrite float_floor_div_exact by lia. cbn [bind].
  rewrite float_int_nonneg
    by (apply Z.mul_nonneg_nonneg; [apply Z.div_pos|]; lia).
  cbn [bind]. rewrite float_rem_nonneg by lia. cbn [bind].
  rewrite float_int_nonneg by lia. cbn [bind].
  rewrite float_rem_nonneg by lia. cbn [bind].
  rewrite Ep, float_int_nonneg by lia. cbn [bind].
  eexists. split; [reflexivity|]. cbn [hours minutes secs millis].
  rewrite Z.div_mul by lia.
  assert (Hms : 0 <= p / U <= 999).
  { split; [apply Z.div_pos; lia|].
    assert (p / U < 1000); [apply Z.div_lt_upper_bound; lia | lia]. }
  repeat split; try lia; try (apply Z.div_pos; lia); auto.
  exists p. repeat split; lia.
Qed.

(** ** Integer formatting *)

(** A check on every integer of [0 .. k-1], by enumeration. *)
Lemma forall_below (P : Z -> bool) (k : nat) :
  forallb P (map Z.of_nat (seq 0 k)) = true ->
  forall n, 0 <= n < Z.of_nat k -> P n = true.
Proof.
  intros H n Hn. rewrite forallb_forall in H. apply H.
  apply in_map_iff. exists (Z.to_nat n). split; [lia|].
  apply in_seq. lia.
Qed.

Arguments digit_char : simpl never.

Lemma string_forall_app p s t :
  string_forall p (s ++ t) = string_forall p s && string_forall p t.
Proof. induction s; simpl; [reflexivity|]. rewrite IHs. apply andb_assoc. Qed.

Lemma length_app s t : String.length (s ++ t) = (String.length s + String.length t)%nat.
Proof. induction s; simpl; auto. Qed.

Lemma digit_char_is_digit n : 0 <= n -> is_digit (digit_char (n mod 10)) = true.
Proof.
  intros Hn. pose proof (Z.mod_pos_bound n 10 ltac:(lia)) as Hm.
  revert Hm. generalize (n mod 10). intros d Hd.
  apply (forall_below (fun d => is_digit (digit_char d)) 10); [reflexivity | lia].
Qed.

Lemma digits_from_all_digits fuel : forall n acc,
  0 <= n -> all_digits acc = true -> all_digits (digits_from fuel n acc) = true.
Proof.
  induction fuel; intros n acc Hn Hacc; cbn [digits_from]; [assumption|].
  assert (Hacc' : all_digits (String (digit_char (n mod 10)) acc) = true).
  { unfold all_digits. cbn [string_forall]. rewrite digit_char_is_digit by lia. exact Hacc. }
  destruct (n <? 10); [assumption|].
  apply IHfuel; [apply Z.div_pos; lia | assumption].
Qed.

Lemma digits_all_digits n : 0 <= n -> all_digits (digits n) = true.
Proof. intros Hn. apply digits_from_all_digits; [assumption | reflexivity]. Qed.

Lemma digits_from_length fuel : forall n acc,
  (String.length acc < String.length (digits_from (S fuel) n acc))%nat.
Proof.
  induction fuel; intros n acc.
  - cbn [digits_from]. destruct (n <? 10); cbn [String.length]; lia.
  - change (digits_from (S (S fuel)) n acc)
      with (if n <? 10 then String (digit_char (n mod 10)) acc
            else digits_from (S fuel) (n / 10) (String (digit_char (n mod 10)) acc)).
    destruct (n <? 10); [cbn [String.length]; lia|].
    specialize (IHfuel (n / 10) (String (digit_char (n mod 10)) acc)).
    cbn [String.length] in IHfuel. lia.
Qed.

Lemma digits_nonempty n : (1 <= String.length (digits n))%nat.
Proof.
  unfold digits. pose proof (digits_from_length (Z.to_nat (Z.log2 n)) n "") as H.
  cbn [String.length] in H. lia.
Qed.


Lemma zeros_length k : String.length (zeros k) = k.
Proof. induction k; simpl; auto. Qed.

Lemma zeros_all_digits k : all_digits (zeros k) = true.
Proof. induction k; simpl; auto. Qed.

Lemma format_d_nonneg w n :
  0 <= n -> format_d w n = zeros (w - String.length (digits n)) ++ digits n.
Proof.
  intros Hn. unfold format_d. destruct (Z.ltb_spec n 0); [lia|].
  rewrite Z.abs_eq by lia. cbn [String.length append]. rewrite Nat.sub_0_r. reflexivity.
Qed.

Lemma format_d_all_digits w n : 0 <= n -> all_digits (format_d w n) = true.
Proof.
  intros Hn. rewrite format_d_nonneg by lia. unfold all_digits.
  rewrite string_forall_app. apply andb_true_intro. split.
  - apply zeros_all_digits.
  - apply digits_all_digits; lia.
Qed.

(** The width is a minimum: a longer number is printed in full. *)
Lemma format_d_length w n :
  0 <= n -> String.length (format_d w n) = Nat.max w (String.length (digits n)).
Proof.
  intros Hn. rewrite format_d_nonneg, length_app, zeros_length by lia. lia.
Qed.

Lemma format_d_2_length n : 0 <= n < 100 -> String.length (format_d 2 n) = 2%nat.
Proof.
  intros Hn.
  apply Nat.eqb_eq.
  apply (forall_below (fun n => (String.length (format_d 2 n) =? 2)%nat) 100);
    [vm_compute; reflexivity | lia].
Qed.

Lemma format_d_3_length n : 0 <= n < 1000 -> String.length (format_d 3 n) = 3%nat.
Proof.
  intros Hn.
  apply Nat.eqb_eq.
  apply (forall_below (fun n => (String.length (format_d 3 n) =? 3)%nat) 1000);
    [vm_compute; reflexivity | lia].
Qed.


(** ** The timestamp formatters *)

Lemma append_assoc s t u : (s ++ t) ++ u = s ++ t ++ u.
Proof. induction s; simpl; [reflexivity | rewrite IHs; reflexivity]. Qed.

Lemma string_forall_weaken (p q : ascii -> bool) s :
  (forall c, p c = true -> q c = true) ->
  string_forall p s = true -> string_forall q s = true.
Proof.
  intros Hpq. induction s; simpl; [reflexivity|].
  intros H. apply andb_prop in H. destruct H as [Ha Hs].
  rewrite (Hpq _ Ha), (IHs Hs). reflexivity.
Qed.

Lemma all_digits_digit_or_colon s :
  all_digits s = true -> string_forall digit_or_colon s = true.
Proof.
  apply string_forall_weaken. intros c Hc. unfold digit_or_colon. rewrite Hc. reflexivity.
Qed.

Lemma is_doubleb_sound n : is_doubleb n = true -> is_double n.
Proof.
  unfold is_doubleb, is_double. intros H. apply andb_prop in H. destruct H as [H1 H2].
  split; [|apply Z.leb_le; exact H2].
  apply Z.eqb_eq in H1. apply Z.mod_divide; [|exact H1].
  pose proof (ulp_exp_nonneg n 1).
  assert (0 < 2 ^ ulp_exp n 1) by (apply Z.pow_pos_nonneg; lia). lia.
Qed.

Lemma finite_doubleb_sound x : finite_doubleb x = true -> finite_double x.
Proof.
  destruct x; simpl; try discriminate. intros H. exists n. split; [reflexivity|].
  apply is_doubleb_sound. exact H.
Qed.

(** Both formatters print the same four fields. *)
Lemma format_timestamp_of_fields x f :
  timestamp_fields x = Ret f ->
  format_timestamp_srt x
  = Ret (format_d 2 (hours f) ++ ":" ++ format_d 2 (minutes f) ++ ":"
         ++ format_d 2 (secs f) ++ "," ++ format_d 3 (millis f)) /\
  format_timestamp_vtt x
  = Ret (format_d 2 (hours f) ++ ":" ++ format_d 2 (minutes f) ++ ":"
         ++ format_d 2 (secs f) ++ "." ++ format_d 3 (millis f)).
Proof.
  intros H. unfold format_timestamp_srt, format_timestamp_vtt. rewrite H.
  split; reflexivity.
Qed.

Lemma fields_ranges n f :
  is_double n -> 0 <= n -> timestamp_fields (Fin n) = Ret f ->
  0 <= hours f /\ 0 <= minutes f < 60 /\ 0 <= secs f < 60 /\ 0 <= millis f < 1000.
Proof.
  intros Hd Hn Hf. pose proof U_pos as HU.
  destruct (timestamp_fields_nonneg n Hd Hn)
    as [f' [Ef [Hh [_ [_ [Em [Es [_ [_ Hms]]]]]]]]].
  rewrite Hf in Ef. injection Ef as <-.
  pose proof (Z.mod_pos_bound n (3600 * U) ltac:(lia)) as Hr1.
  pose proof (Z.mod_pos_bound n (60 * U) ltac:(lia)) as Hr2.
  rewrite Em, Es. repeat split; try lia.
  - apply Z.div_pos; lia.
  - apply Z.div_lt_upper_bound; lia.
  - apply Z.div_pos; lia.
  - apply Z.div_lt_upper_bound; lia.
Qed.

(** C4: for every seconds value >= 0 the SRT and VTT formatters return the
    same text but for one character, the separator before the milliseconds:
    a comma for SRT, a period for VTT.  The text before it holds digits and
    colons only, the text after it digits only.  Both are functions of the
    seconds value alone (they take and return no state), so a repeated call
    returns the same string. *)
Theorem srt_vtt_differ_in_separator_only n :
  is_double n -> 0 <= n ->
  exists pre post,
    format_timestamp_srt (Fin n) = Ret (pre ++ "," ++ post) /\
    format_timestamp_vtt (Fin n) = Ret (pre ++ "." ++ post) /\
    string_forall digit_or_colon pre = true /\
    all_digits post = true.
Proof.
  intros Hd Hn.
  destruct (timestamp_fields_nonneg n Hd Hn) as [f [Ef _]].
  destruct (fields_ranges n f Hd Hn Ef) as [Hh [Hm [Hs Hms]]].
  destruct (format_timestamp_of_fields _ _ Ef) as [Esrt Evtt].
  exists (format_d 2 (hours f) ++ ":" ++ format_d 2 (minutes f) ++ ":"
          ++ format_d 2 (secs f)), (format_d 3 (millis f)).
  rewrite Esrt, Evtt, !append_assoc.
  repeat split.
  - rewrite !string_forall_app.
    rewrite (all_digits_digit_or_colon (format_d 2 (hours f))),
            (all_digits_digit_or_colon (format_d 2 (minutes f))),
            (all_digits_digit_or_colon (format_d 2 (secs f)))
      by (apply format_d_all_digits; lia).
    reflexivity.
  - apply format_d_all_digits; lia.
Qed.

Lemma srt_vtt_differ_in_separator_only_witness :
  is_double (131 * 2 ^ 1073) /\ 0 <= 131 * 2 ^ 1073 /\
  exists pre post,
    format_timestamp_srt (Fin (131 * 2 ^ 1073)) = Ret (pre ++ "," ++ post) /\
    format_timestamp_vtt (Fin (131 * 2 ^ 1073)) = Ret (pre ++ "." ++ post) /\
    string_forall digit_or_colon pre = true /\
    all_digits post = true.
Proof.
  assert (Hd : is_double (131 * 2 ^ 1073))
    by (apply is_doubleb_sound; vm_compute; reflexivity).
  assert (Hn : 0 <= 131 * 2 ^ 1073) by (vm_compute; discriminate).
  split; [exact Hd | split; [exact Hn|]].
  exact (srt_vtt_differ_in_separator_only (131 * 2 ^ 1073) Hd Hn).
Defined.




(** C6, counterexample: the negative value -1.5 is not rejected; both
    formatters return a string. *)
Lemma negative_seconds_are_formatted :
  format_timestamp_srt (of_bits (-3) (-1)) = Ret "-1:59:58,500" /\
  format_timestamp_vtt (of_bits (-3) (-1)) = Ret "-1:59:58.500".
Proof. split; vm_compute; reflexivity. Qed.

Lemma format_timestamp_total n :
  Z.abs n <= MAX ->
  exists s v, format_timestamp_srt (Fin n) = Ret s /\ format_timestamp_vtt (Fin n) = Ret v.
Proof.
  intros Hn. destruct (timestamp_fields_total n Hn) as [f Ef].
  destruct (format_timestamp_of_fields _ _ Ef) as [Esrt Evtt].
  eexists. eexists. split; [exact Esrt | exact Evtt].
Qed.

(** C6, as amended: the formatters do not validate their argument.  A
    negative finite seconds value is formatted like any other (no failure);
    a non-finite one (NaN, either infinity) makes [int()] raise a
    ValueError, which is not an InvalidInput. *)
Theorem formatters_do_not_validate :
  (forall n, is_double n -> n < 0 ->
     exists s v, format_timestamp_srt (Fin n) = Ret s /\
                 format_timestamp_vtt (Fin n) = Ret v) /\
  (forall x, x = NaN \/ (exists neg, x = Inf neg) ->
     format_timestamp_srt x
     = Raise (Exc "ValueError" "cannot convert float NaN to integer") /\
     format_timestamp_vtt x
     = Raise (Exc "ValueError" "cannot convert float NaN to integer")).
Proof.
  split.
  - intros n [_ Hn] _. apply format_timestamp_total. exact Hn.
  - intros x [-> | [neg ->]].
    + split; vm_compute; reflexivity.
    + destruct neg; split; vm_compute; reflexivity.
Qed.

Lemma formatters_do_not_validate_witness :
  (is_double (- (3 * 2 ^ 1073)) /\ - (3 * 2 ^ 1073) < 0 /\
   exists s v, format_timestamp_srt (Fin (- (3 * 2 ^ 1073))) = Ret s /\
               format_timestamp_vtt (Fin (- (3 * 2 ^ 1073))) = Ret v) /\
  format_timestamp_srt (Inf false)
  = Raise (Exc "ValueError" "cannot convert float NaN to integer").
Proof.
  assert (Hd : is_double (- (3 * 2 ^ 1073)))
    by (apply is_doubleb_sound; vm_compute; reflexivity).
  assert (Hn : - (3 * 2 ^ 1073) < 0) by (vm_compute; reflexivity).
  split.
  - split; [exact Hd | split; [exact Hn|]].
    exact (proj1 formatters_do_not_validate (- (3 * 2 ^ 1073)) Hd Hn).
  - exact (proj1 (proj2 formatters_do_not_validate (Inf false)
                    (or_intror (ex_intro _ false eq_refl)))).
Defined.

(** ** The subtitle renderers *)

Lemma srt_time_ok x : finite_double x -> format_timestamp_srt x = Ret (srt_time x).
Proof.
  intros [n [-> [_ Hn]]]. destruct (format_timestamp_total n Hn) as [s [v [Es _]]].
  unfold srt_time. rewrite Es. reflexivity.
Qed.

Lemma vtt_time_ok x : finite_double x -> format_timestamp_vtt x = Ret (vtt_time x).
Proof.
  intros [n [-> [_ Hn]]]. destruct (format_timestamp_total n Hn) as [s [v [_ Ev]]].
  unfold vtt_time. rewrite Ev. reflexivity.
Qed.







(** C2, counterexample: for an empty segment list the VTT rendering is not
    "WEBVTT" followed by two newlines. *)
Lemma generate_vtt_empty_is_not_two_newlines :
  generate_vtt [("text", VJson (JStr "")); ("segments", VSegments [])]
  <> Ret ("WEBVTT" ++ newline ++ newline).
Proof. vm_compute. discriminate. Qed.

(** C2, as amended: for a result whose segment list is empty (or absent)
    the SRT rendering is the empty string and the VTT rendering is exactly
    "WEBVTT" followed by one newline: the header line and the blank line,
    joined by a newline. *)
Theorem generate_empty_segments (result : dict) :
  get_segments result = Ret [] ->
  generate_srt result = Ret "" /\
  generate_vtt result = Ret ("WEBVTT" ++ newline) /\
  generate_vtt result = Ret (join newline ["WEBVTT"; ""]).
Proof.
  intros Hget. unfold generate_srt, generate_vtt. rewrite Hget.
  repeat split; reflexivity.
Qed.

Lemma generate_empty_segments_witness :
  get_segments [("text", VJson (JStr "")); ("segments", VSegments [])] = Ret [] /\
  generate_srt [("text", VJson (JStr "")); ("segments", VSegments [])] = Ret "" /\
  generate_vtt [("text", VJson (JStr "")); ("segments", VSegments [])]
  = Ret ("WEBVTT" ++ newline).
Proof.
  split; [reflexivity|].
  pose proof (generate_empty_segments
                [("text", VJson (JStr "")); ("segments", VSegments [])] eq_refl)
    as [Hs [Hv _]].
  split; [exact Hs | exact Hv].
Defined.

(** ** The idle-shutdown timer *)

Lemma reset_disarms w : disarmed (reset_shutdown_timer w).
Proof.
  unfold disarmed, reset_shutdown_timer.
  destruct w as [c i m l [tm|] k fs lg]; cbn; [reflexivity | exact I].
Qed.

Lemma reset_keeps_sigterms w : sigterms (reset_shutdown_timer w) = sigterms w.
Proof. destruct w as [c i m l [tm|] k fs lg]; reflexivity. Qed.

Lemma advance_disarmed t w :
  disarmed w -> disarmed (advance t w) /\ sigterms (advance t w) = sigterms w.
Proof.
  unfold disarmed, advance. destruct w as [c i m l [tm|] k fs lg]; cbn.
  - intros Hf. rewrite Hf. cbn. split; [exact Hf | reflexivity].
  - intros _. split; [exact I | reflexivity].
Qed.

Lemma step_disarmed w e :
  disarmed w -> disarmed (step w e) /\ sigterms (step w e) = sigterms w.
Proof.
  intros Hd. destruct e as [t|t]; cbn [step].
  - split; [apply reset_disarms|].
    rewrite reset_keeps_sigterms. apply advance_disarmed. exact Hd.
  - apply advance_disarmed. exact Hd.
Qed.

Lemma run_disarmed events : forall w,
  disarmed w -> sigterms (run events w) = sigterms w.
Proof.
  induction events as [|e events IH]; intros w Hd; [reflexivity|].
  unfold run in *. cbn [fold_left].
  destruct (step_disarmed w e Hd) as [Hd' Hs].
  rewrite IH by exact Hd'. exact Hs.
Qed.

(** Once a request has reset the timer, whatever follows, the process
    never sends itself another SIGTERM: the reset cancels the pending timer
    and nothing starts a new one. *)
Lemma no_shutdown_after_a_request t events w :
  sigterms (run (Request_at t :: events) w) = sigterms (advance t w).
Proof.
  unfold run. cbn [fold_left step]. fold (run events (reset_shutdown_timer (advance t w))).
  rewrite run_disarmed by apply reset_disarms. apply reset_keeps_sigterms.
Qed.

(** Without any request the timer started at startup fires once, at its
    deadline, and only once. *)
Lemma timer_fires_once_without_requests timeout t t' :
  0 < timeout -> timeout <= t -> t <= t' ->
  sigterms (run [Wait_until t] (started timeout)) = 1%nat /\
  sigterms (run [Wait_until t; Wait_until t'] (started timeout)) = 1%nat.
Proof.
  intros H0 Ht Ht'. unfold run, started. cbn.
  destruct (Z.leb_spec timeout t); [|lia]. cbn. split; reflexivity.
Qed.

(** C1, on the code: the process starts at time 0 with a timeout of 600
    seconds, one request arrives at time 1, and then nothing for a million
    seconds.  [reset_shutdown_timer] has cancelled the timer without
    starting a new countdown, so no SIGTERM is ever sent, where the claim
    has exactly one firing 600 seconds after the request. *)
Theorem reset_cancels_without_rescheduling :
  let w := run [Request_at 1; Wait_until 601; Wait_until 1000000] (started 600) in
  sigterms w = 0%nat /\
  shutdown_timer w = Some (mk_timer 600 true) /\
  last_request_time w = 1.
Proof. cbn. repeat split; reflexivity. Qed.

(** ** The request handler *)

Lemma reset_keeps_model w : model_loaded (reset_shutdown_timer w) = model_loaded w.
Proof. destruct w as [c i m l [tm|] k fs lg]; reflexivity. Qed.

Lemma reset_keeps_files w : files (reset_shutdown_timer w) = files w.
Proof. destruct w as [c i m l [tm|] k fs lg]; reflexivity. Qed.

(** Once the temporary file has a name in [temp_file_path], the [finally]
    block never raises. *)
Lemma finally_block_bound env name path w :
  fst (finally_block env (mk_locals (Some name) (Some path)) w) = Ret tt.
Proof.
  unfold finally_block. cbn [temp_file temp_file_path].
  destruct (mem path (files w)); [|reflexivity].
  destruct (unlink env path) as [[]|e]; reflexivity.
Qed.

(** A request that reaches the inference call gets the content the format
    chain builds, or a 500 carrying the message of what went wrong. *)
Lemma transcribe_served env req w result :
  served env req w result ->
  fst (transcribe env req w)
  = match format_response (response_format_of req) result with
    | Ret content => Ret content
    | Raise e => Raise (HTTPException 500 ("Transcription failed: " ++ str_exn e))
    end.
Proof.
  intros [Hm [Hext [name [content [Htmp [Hread [Hwrite Hinf]]]]]]].
  unfold transcribe. rewrite reset_keeps_model, Hm, Hext. cbn [negb].
  unfold try_body. rewrite Htmp, Hread, Hwrite, Hinf.
  destruct (format_response (response_format_of req) result) as [c|e].
  - match goal with
    | |- context [finally_block env ?l ?w'] =>
        pose proof (finally_block_bound env name name w') as Hf;
        destruct (finally_block env l w') as [[[]|e'] w'']
    end; cbn in Hf; [reflexivity | discriminate].
  - match goal with
    | |- context [finally_block env ?l ?w'] =>
        pose proof (finally_block_bound env name name w') as Hf;
        destruct (finally_block env l w') as [[[]|e'] w'']
    end; cbn in Hf; [reflexivity | discriminate].
Qed.






(** C8: a request whose file extension is not one of .mp3, .wav, .webm,
    .ogg, .flac, .m4a, .mp4 is rejected with status 400 and a message that
    lists the allowed extensions.  The check comes after the activity reset
    and after the readiness check: the timer has been reset when the
    request is rejected, and while the model is not loaded the answer is
    503 whatever the extension.  No temporary file is created. *)
Theorem disallowed_extension_is_rejected env req w :
  mem (file_ext_of (file req)) allowed_extensions = false ->
  (model_loaded w = true ->
   transcribe env req w
   = (Raise (HTTPException 400
        "Invalid file type. Allowed extensions: .mp3, .wav, .webm, .ogg, .flac, .m4a, .mp4"),
      reset_shutdown_timer w)) /\
  (model_loaded w = false ->
   transcribe env req w
   = (Raise (HTTPException 503 "Whisper model not loaded"), reset_shutdown_timer w)) /\
  files (snd (transcribe env req w)) = files w.
Proof.
  intros Hext. unfold transcribe. rewrite reset_keeps_model, Hext.
  destruct (model_loaded w); cbn [negb].
  - split; [intros _; reflexivity | split; [discriminate|]]. apply reset_keeps_files.
  - split; [discriminate | split; [intros _; reflexivity|]]. apply reset_keeps_files.
Qed.

Lemma disallowed_extension_is_rejected_witness :
  mem (file_ext_of (file (example_request "clip.mov" None))) allowed_extensions = false /\
  model_loaded (started 600) = true /\
  transcribe example_env (example_request "clip.mov" None) (started 600)
  = (Raise (HTTPException 400
       "Invalid file type. Allowed extensions: .mp3, .wav, .webm, .ogg, .flac, .m4a, .mp4"),
     reset_shutdown_timer (started 600)).
Proof.
  split; [reflexivity | split; [reflexivity|]].
  exact (proj1 (disallowed_extension_is_rejected example_env
                  (example_request "clip.mov" None) (started 600) eq_refl) eq_refl).
Defined.


(** A failure to delete the temporary file is logged and changes nothing
    in what the handler returns. *)
Lemma unlink_failure_is_swallowed env env' req w :
  NamedTemporaryFile env' = NamedTemporaryFile env ->
  write env' = write env ->
  model_transcribe env' = model_transcribe env ->
  fst (transcribe env' req w) = fst (transcribe env req w).
Proof.
  intros H1 H2 H3. unfold transcribe.
  destruct (negb (model_loaded (reset_shutdown_timer w))); [reflexivity|].
  destruct (negb (mem (file_ext_of (file req)) allowed_extensions)); [reflexivity|].
  unfold try_body. rewrite H1, H2, H3.
  destruct (NamedTemporaryFile env (file_ext_of (file req))) as [name|e]; [|reflexivity].
  destruct (read (file req)) as [content|e]; [|reflexivity].
  destruct (write env name content) as [[]|e]; [|reflexivity].
  destruct (model_transcribe env name (transcribe_options_of (language req))) as [result|e].
  - destruct (format_response (response_format_of req) result) as [c|e];
      unfold finally_block; cbn [temp_file temp_file_path];
      repeat match goal with
        | |- context [if ?b then _ else _] => destruct b
        | |- context [unlink ?v ?p] => destruct (unlink v p) as [[]|?]
        end; reflexivity.
  - unfold finally_block; cbn [temp_file temp_file_path];
      repeat match goal with
        | |- context [if ?b then _ else _] => destruct b
        | |- context [unlink ?v ?p] => destruct (unlink v p) as [[]|?]
        end; reflexivity.
Qed.

(** C9, on the code: with the model loaded and an allowed extension, the
    temporary file is created and writing the upload into it fails (disk
    full).  The [except] clause turns the error into a 500, but the
    [finally] block then reads [temp_file_path], which was never assigned:
    the UnboundLocalError replaces the 500 and leaves the handler unhandled,
    and the temporary file stays on disk, where the claim has the file
    released on every exit path. *)
Theorem temp_file_leaks_when_the_upload_cannot_be_written :
  let out := transcribe disk_full_env (example_request "clip.mp3" None) (started 600) in
  fst out = Raise (Exc "UnboundLocalError"
                 "cannot access local variable 'temp_file_path' where it is not associated with a value") /\
  In "/tmp/tmpk3s9.mp3" (files (snd out)) /\
  files (started 600) = [].
Proof. cbn. repeat split. left. reflexivity. Qed.



(** ** The arithmetic against the Standard Library's [SpecFloat] *)

(** On every sample pair, [mul], [add], [sub] and [div] return the
    double that the specification floats of the Standard Library return at
    precision 53 and maximal exponent 1024. *)
Example arithmetic_agrees_with_SpecFloat :
  on_samples (agrees mul (SFmul 53 1024)) = true /\
  on_samples (agrees add (SFadd 53 1024)) = true /\
  on_samples (agrees sub (SFsub 53 1024)) = true /\
  on_samples (agrees div (SFdiv 53 1024)) = true.
Proof. split; [|split; [|split]]; vm_compute; reflexivity. Qed.

(** Values checked against CPython: [0.015] prints 15 milliseconds (the
    product rounds up to 15.0), and [-2^-80] shows the rounding of
    [mod + w] in [float_rem]. *)
Example formatter_samples :
  format_timestamp_srt (of_bits 8646911284551352 (-59)) = Ret "00:00:00,015" /\
  format_timestamp_srt (of_bits (-1) (-80)) = Ret "-1:60:60,1000" /\
  format_timestamp_vtt (of_bits 281 (-2)) = Ret "00:01:10.250".
Proof. split; [|split]; vm_compute; reflexivity. Qed.

(** * Further properties of the handlers, the renderers and the formatters *)

Lemma same_process_refl w : same_process w w.
Proof. repeat split. Qed.

Lemma same_process_trans w1 w2 w3 :
  same_process w1 w2 -> same_process w2 w3 -> same_process w1 w3.
Proof.
  unfold same_process. intros [? [? [? [? [? ?]]]]] [? [? [? [? [? ?]]]]].
  repeat split; congruence.
Qed.

Lemma try_body_same env req ext w :
  same_process w (snd (try_body env req ext w)).
Proof.
  unfold try_body.
  destruct (NamedTemporaryFile env ext) as [name|e]; [|apply same_process_refl].
  destruct (read (file req)) as [content|e]; [|repeat split].
  destruct (write env name content) as [[]|e]; [|repeat split].
  destruct (model_transcribe env name (transcribe_options_of (language req)));
    repeat split.
Qed.

Lemma finally_block_same env locals w :
  same_process w (snd (finally_block env locals w)).
Proof.
  unfold finally_block.
  destruct (temp_file locals); [|apply same_process_refl].
  destruct (temp_file_path locals) as [path|]; [|apply same_process_refl].
  destruct (mem path (files w)); [|apply same_process_refl].
  destruct (unlink env path); repeat split.
Qed.

(** Besides the temporary files and the log, the handler leaves the state
    its first statement, [reset_shutdown_timer], produces. *)
Lemma transcribe_same_process env req w :
  same_process (reset_shutdown_timer w) (snd (transcribe env req w)).
Proof.
  unfold transcribe.
  destruct (negb (model_loaded (reset_shutdown_timer w))); [apply same_process_refl|].
  destruct (negb (mem (file_ext_of (file req)) allowed_extensions));
    [apply same_process_refl|].
  pose proof (try_body_same env req (file_ext_of (file req)) (reset_shutdown_timer w)) as H1.
  destruct (try_body env req (file_ext_of (file req)) (reset_shutdown_timer w))
    as [[r locals] w1].
  cbn [snd] in H1.
  assert (H2 : forall w2, same_process w1 w2 ->
                 same_process (reset_shutdown_timer w)
                   (snd (match finally_block env locals w2 with
                         | (Ret _, w3) => (r, w3)
                         | (Raise e, w3) => (Raise e, w3)
                         end))).
  { intros w2 H12.
    pose proof (finally_block_same env locals w2) as H23.
    destruct (finally_block env locals w2) as [[u|e] w3]; cbn [snd] in *;
      eapply same_process_trans; eauto; eapply same_process_trans; eauto. }
  destruct r as [content|e].
  - apply H2. apply same_process_refl.
  - specialize (H2 (logger (ErrorTranscription (str_exn e)) w1)).
    assert (H : same_process w1 (logger (ErrorTranscription (str_exn e)) w1))
      by (repeat split).
    specialize (H2 H).
    destruct (finally_block env locals (logger (ErrorTranscription (str_exn e)) w1))
      as [[u|e'] w3]; exact H2.
Qed.

(** X11: the handler never sends a SIGTERM, never starts a timer and
    never touches the readiness flag, the clock or the timeout: whatever
    the request and whatever fails, it records the time of the request and
    leaves the pending timer, if any, cancelled. *)
Theorem transcribe_only_resets_the_timer env req w :
  let w' := snd (transcribe env req w) in
  sigterms w' = sigterms w /\
  shutdown_timer w' = option_map cancel (shutdown_timer w) /\
  last_request_time w' = clock w /\
  model_loaded w' = model_loaded w /\
  clock w' = clock w /\
  IDLE_TIMEOUT w' = IDLE_TIMEOUT w.
Proof.
  destruct (transcribe_same_process env req w) as [H1 [H2 [H3 [H4 [H5 H6]]]]].
  cbn zeta. rewrite H1, H2, H3, H4, H5, H6.
  destruct w as [c i m l [tm|] k fs lg]; repeat split.
Qed.

Lemma serve_all_cons a l w : serve_all (a :: l) w = serve_all l (serve w a).
Proof. reflexivity. Qed.

Lemma serve_request w a :
  is_request a = true ->
  disarmed (serve w a) /\ sigterms (serve w a) = sigterms (advance (time_of a) w).
Proof.
  destruct a as [t m|t env req|t]; cbn [is_request serve time_of]; intros H.
  - change (snd (health m (advance t w))) with (reset_shutdown_timer (advance t w)).
    split; [apply reset_disarms | apply reset_keeps_sigterms].
  - destruct (transcribe_same_process env req (advance t w))
      as [Hs [Ht _]].
    split.
    + unfold disarmed. rewrite Ht. apply reset_disarms.
    + rewrite Hs. apply reset_keeps_sigterms.
  - discriminate.
Qed.

Lemma serve_disarmed w a :
  disarmed w -> disarmed (serve w a) /\ sigterms (serve w a) = sigterms w.
Proof.
  intros Hd. destruct (advance_disarmed (time_of a) w Hd) as [Hd' Hs'].
  destruct (is_request a) eqn:E.
  - destruct (serve_request w a E) as [H1 H2]. split; [exact H1 | congruence].
  - destruct a; try discriminate. cbn in *. split; assumption.
Qed.

Lemma serve_all_disarmed l : forall w,
  disarmed w -> sigterms (serve_all l w) = sigterms w.
Proof.
  induction l as [|a l IH]; intros w Hd; [reflexivity|].
  rewrite serve_all_cons. destruct (serve_disarmed w a Hd) as [Hd' Hs].
  rewrite IH by exact Hd'. exact Hs.
Qed.

(** X1: once a health check or a transcription request has been handled,
    the process never sends itself a SIGTERM again, whatever requests and
    idle periods follow: the handlers cancel the pending timer and nothing
    after startup starts one. *)
Theorem no_shutdown_once_a_request_was_handled :
  (forall t m rest w,
     sigterms (serve_all (Health_at t m :: rest) w) = sigterms (advance t w)) /\
  (forall t env req rest w,
     sigterms (serve_all (Transcribe_at t env req :: rest) w)
     = sigterms (advance t w)).
Proof.
  split; intros.
  - rewrite serve_all_cons.
    destruct (serve_request w (Health_at t m) eq_refl) as [Hd Hs].
    rewrite serve_all_disarmed by exact Hd. exact Hs.
  - rewrite serve_all_cons.
    destruct (serve_request w (Transcribe_at t env req) eq_refl) as [Hd Hs].
    rewrite serve_all_disarmed by exact Hd. exact Hs.
Qed.

Lemma idle_pending d ts : forall w,
  shutdown_timer w = Some (mk_timer d false) ->
  sigterms (serve_all (map Idle_until ts) w)
  = (sigterms w + if existsb (fun t => (d <=? t)%Z) ts then 1 else 0)%nat.
Proof.
  induction ts as [|t ts IH]; intros w Hw.
  - cbn. lia.
  - cbn [map existsb]. rewrite serve_all_cons. cbn [serve].
    destruct (Z.leb_spec d t) as [Hle|Hgt]; cbn [orb].
    + rewrite serve_all_disarmed.
      * unfold advance. rewrite Hw. cbn. destruct (Z.leb_spec d t); [|lia]. cbn. lia.
      * unfold disarmed, advance. rewrite Hw. cbn.
        destruct (Z.leb_spec d t); [|lia]. reflexivity.
    + rewrite IH.
      * unfold advance. rewrite Hw. cbn. destruct (Z.leb_spec d t); [lia|]. reflexivity.
      * unfold advance. rewrite Hw. cbn. destruct (Z.leb_spec d t); [lia|]. cbn. exact Hw.
Qed.

(** X2: while no request arrives, the timer that [load_model] starts fires
    exactly once: the process has sent one SIGTERM as soon as a wait reaches
    the deadline (startup time plus IDLE_TIMEOUT), none before, and never a
    second one. *)
Theorem startup_timer_fires_exactly_once timeout ts :
  sigterms (serve_all (map Idle_until ts) (started timeout))
  = if existsb (fun t => timeout <=? t) ts then 1%nat else 0%nat.
Proof.
  rewrite (idle_pending timeout ts (started timeout)) by reflexivity.
  reflexivity.
Qed.














Lemma no_dot_no_extension p : rfind "." p = None -> snd (splitext p) = "".
Proof. intros H. unfold splitext. rewrite H. reflexivity. Qed.

(** X10: an upload without a file name, or whose name holds no dot, has
    the empty extension and is rejected with status 400 (once the model is
    loaded). *)
Theorem upload_without_extension_is_rejected env req w :
  model_loaded w = true ->
  filename (file req) = None \/
  (exists p, filename (file req) = Some p /\ rfind "." p = None) ->
  fst (transcribe env req w)
  = Raise (HTTPException 400
      "Invalid file type. Allowed extensions: .mp3, .wav, .webm, .ogg, .flac, .m4a, .mp4").
Proof.
  intros Hm Hname.
  assert (Hext : file_ext_of (file req) = "").
  { unfold file_ext_of. destruct Hname as [-> | [p [-> Hp]]]; [reflexivity|].
    destruct p as [|c n]; [reflexivity|].
    rewrite (no_dot_no_extension _ Hp). reflexivity. }
  unfold transcribe. rewrite reset_keeps_model, Hm, Hext. reflexivity.
Qed.

Lemma upload_without_extension_is_rejected_witness :
  fst (transcribe example_env (example_request "recording" None) (started 600))
  = Raise (HTTPException 400
      "Invalid file type. Allowed extensions: .mp3, .wav, .webm, .ogg, .flac, .m4a, .mp4").
Proof.
  exact (upload_without_extension_is_rejected example_env
           (example_request "recording" None) (started 600) eq_refl
           (or_intror (ex_intro _ "recording" (conj eq_refl eq_refl)))).
Defined.

Lemma format_timestamp_non_finite x :
  non_finite x ->
  format_timestamp_srt x = Raise nan_to_integer /\
  format_timestamp_vtt x = Raise nan_to_integer.
Proof.
  intros [-> | [neg ->]]; [|destruct neg]; split; vm_compute; reflexivity.
Qed.

Lemma finite_not_non_finite x : finite_double x -> ~ non_finite x.
Proof.
  intros [n [-> _]] [H | [neg H]]; discriminate.
Qed.

Lemma srt_loop_non_finite segments : forall i srt_lines,
  Forall float_segment segments ->
  Exists non_finite_segment segments ->
  srt_loop i segments srt_lines = Raise nan_to_integer.
Proof.
  induction segments as [|segment rest IH]; intros i srt_lines Hall Hex.
  - inversion Hex.
  - cbn [srt_loop].
    inversion Hall as [|? ? [Hs He] Hrest]; subst.
    destruct Hs as [Hs|Hs];
      [|rewrite (proj1 (format_timestamp_non_finite _ Hs)); reflexivity].
    rewrite (srt_time_ok _ Hs). cbn [bind].
    destruct He as [He|He];
      [|rewrite (proj1 (format_timestamp_non_finite _ He)); reflexivity].
    rewrite (srt_time_ok _ He). cbn [bind].
    apply IH; [assumption|].
    inversion Hex as [? ? [Hbad|Hbad]|]; subst; [| |assumption].
    + exfalso. exact (finite_not_non_finite _ Hs Hbad).
    + exfalso. exact (finite_not_non_finite _ He Hbad).
Qed.

Lemma vtt_loop_non_finite segments : forall vtt_lines,
  Forall float_segment segments ->
  Exists non_finite_segment segments ->
  vtt_loop segments vtt_lines = Raise nan_to_integer.
Proof.
  induction segments as [|segment rest IH]; intros vtt_lines Hall Hex.
  - inversion Hex.
  - cbn [vtt_loop].
    inversion Hall as [|? ? [Hs He] Hrest]; subst.
    destruct Hs as [Hs|Hs];
      [|rewrite (proj2 (format_timestamp_non_finite _ Hs)); reflexivity].
    rewrite (vtt_time_ok _ Hs). cbn [bind].
    destruct He as [He|He];
      [|rewrite (proj2 (format_timestamp_non_finite _ He)); reflexivity].
    rewrite (vtt_time_ok _ He). cbn [bind].
    apply IH; [assumption|].
    inversion Hex as [? ? [Hbad|Hbad]|]; subst; [| |assumption].
    + exfalso. exact (finite_not_non_finite _ Hs Hbad).
    + exfalso. exact (finite_not_non_finite _ He Hbad).
Qed.

(** X8: when some segment of the result has a timestamp that is NaN or
    an infinity, both renderers raise the ValueError of [int()], and a
    request for "srt" or "vtt" is answered with a 500 carrying its
    message. *)
Theorem non_finite_timestamp_is_a_500 env req w result segments :
  served env req w result ->
  get_segments result = Ret segments ->
  Forall float_segment segments ->
  Exists non_finite_segment segments ->
  response_format req = Some "srt" \/ response_format req = Some "vtt" ->
  generate_srt result = Raise nan_to_integer /\
  generate_vtt result = Raise nan_to_integer /\
  fst (transcribe env req w)
  = Raise (HTTPException 500
             "Transcription failed: cannot convert float NaN to integer").
Proof.
  intros Hs Hget Hall Hex Hf.
  assert (Esrt : generate_srt result = Raise nan_to_integer).
  { unfold generate_srt. rewrite Hget. cbn [bind].
    rewrite srt_loop_non_finite by assumption. reflexivity. }
  assert (Evtt : generate_vtt result = Raise nan_to_integer).
  { unfold generate_vtt. rewrite Hget. cbn [bind].
    rewrite vtt_loop_non_finite by assumption. reflexivity. }
  split; [exact Esrt | split; [exact Evtt|]].
  rewrite (transcribe_served env req w result Hs).
  unfold response_format_of, format_response.
  destruct Hf as [-> | ->]; cbn [String.eqb Ascii.eqb Bool.eqb].
  - rewrite Esrt. reflexivity.
  - rewrite Evtt. reflexivity.
Qed.

Lemma non_finite_timestamp_is_a_500_witness :
  fst (transcribe nan_env (example_request "clip.mp3" (Some "srt")) (started 600))
  = Raise (HTTPException 500
             "Transcription failed: cannot convert float NaN to integer").
Proof.
  refine (proj2 (proj2 (non_finite_timestamp_is_a_500 nan_env
            (example_request "clip.mp3" (Some "srt")) (started 600) nan_result
            [example_segment; mk_segment (of_int 2) NaN " world" []]
            _ eq_refl _ _ (or_introl eq_refl)))).
  - split; [reflexivity | split; [reflexivity|]].
    exists "/tmp/tmpk3s9.mp3", "ID3". repeat split; reflexivity.
  - constructor; [|constructor; [|constructor]].
    + split; left; apply finite_doubleb_sound; vm_compute; reflexivity.
    + split; [left; apply finite_doubleb_sound; vm_compute; reflexivity|].
      right. left. reflexivity.
  - apply Exists_cons_tl. apply Exists_cons_hd. right. left. reflexivity.
Defined.




(** X13: below 360000 seconds (100 hours) both formatters return exactly
    12 characters. *)
Theorem timestamp_has_twelve_characters n :
  is_double n -> 0 <= n < 360000 * U ->
  exists s v,
    format_timestamp_srt (Fin n) = Ret s /\ String.length s = 12%nat /\
    format_timestamp_vtt (Fin n) = Ret v /\ String.length v = 12%nat.
Proof.
  intros Hd [Hn Hlt]. pose proof U_pos as HU.
  destruct (timestamp_fields_nonneg n Hd Hn)
    as [f [Ef [Hh [Hh1 [_ [_ [_ [_ [_ Hms]]]]]]]]].
  destruct (fields_ranges n f Hd Hn Ef) as [_ [Hm [Hs _]]].
  destruct (format_timestamp_of_fields _ _ Ef) as [Esrt Evtt].
  assert (H53 : 360000 * U < 2 ^ 53 * U) by (apply Z.mul_lt_mono_pos_r; lia).
  assert (Hh100 : hours f < 100).
  { rewrite Hh1 by lia. apply Z.div_lt_upper_bound; lia. }
  eexists. eexists. split; [exact Esrt|]. split; [|split; [exact Evtt|]].
  - rewrite !length_app, !format_d_2_length, format_d_3_length by lia. reflexivity.
  - rewrite !length_app, !format_d_2_length, format_d_3_length by lia. reflexivity.
Qed.

Lemma timestamp_has_twelve_characters_witness :
  exists s v,
    format_timestamp_srt (Fin (131 * 2 ^ 1073)) = Ret s /\ String.length s = 12%nat /\
    format_timestamp_vtt (Fin (131 * 2 ^ 1073)) = Ret v /\ String.length v = 12%nat.
Proof.
  apply (timestamp_has_twelve_characters (131 * 2 ^ 1073)).
  - apply is_doubleb_sound. vm_compute. reflexivity.
  - split; vm_compute; [discriminate | reflexivity].
Defined.

(** A whole number below [2^53] is a double. *)
Lemma int_is_double k : 0 <= k < 2 ^ 53 -> is_double (k * U).
Proof.
  intros Hk. pose proof U_pos as HU. pose proof U53_MAX as HMAX.
  split; [|rewrite Z.abs_eq by nia; nia].
  destruct (Z.eq_dec k 0) as [->|Hn]; [apply Z.divide_0_r|].
  assert (Hlog : Z.log2 (k * U) < 1127).
  { apply Z.log2_lt_pow2; [nia|].
    replace (2 ^ 1127) with (2 ^ 53 * U)
      by (rewrite U_eq, <- Z.pow_add_r by lia; reflexivity).
    nia. }
  unfold ulp_exp. rewrite Z.div_1_r, Z.abs_eq by nia.
  set (e := Z.max 0 (Z.log2 (k * U) - 52)).
  apply Z.divide_mul_r. rewrite U_eq.
  exists (2 ^ (1074 - e)). rewrite <- Z.pow_add_r by lia. f_equal. lia.
Qed.

Lemma of_int_exact k : 0 <= k < 2 ^ 53 -> of_int k = Fin (k * U).
Proof.
  intros Hk. pose proof U_pos as HU. pose proof U53_MAX as HMAX.
  unfold of_int, rnd. rewrite round_int by lia.
  destruct (Z.ltb_spec MAX (Z.abs (k * U))); [|reflexivity].
  rewrite Z.abs_eq in * by nia. nia.
Qed.

(** X14: a whole number of seconds [k] (below 2^53) is printed exactly:
    hours [k / 3600], minutes [(k mod 3600) / 60], seconds [k mod 60] and
    milliseconds 000. *)
Theorem whole_seconds_are_printed_exactly k :
  0 <= k < 2 ^ 53 ->
  format_timestamp_srt (of_int k)
  = Ret (format_d 2 (k / 3600) ++ ":" ++ format_d 2 (k mod 3600 / 60) ++ ":"
         ++ format_d 2 (k mod 60) ++ ",000") /\
  format_timestamp_vtt (of_int k)
  = Ret (format_d 2 (k / 3600) ++ ":" ++ format_d 2 (k mod 3600 / 60) ++ ":"
         ++ format_d 2 (k mod 60) ++ ".000").
Proof.
  intros Hk. pose proof U_pos as HU.
  rewrite of_int_exact by lia.
  assert (Hn : 0 <= k * U) by nia.
  destruct (timestamp_fields_nonneg (k * U) (int_is_double k Hk) Hn)
    as [f [Ef [_ [Hh [_ [Em [Es [[p [Ep [_ Emp]]] _]]]]]]]].
  destruct (format_timestamp_of_fields _ _ Ef) as [Esrt Evtt].
  assert (Eh : hours f = k / 3600).
  { rewrite Hh by nia. apply Z.div_mul_cancel_r; lia. }
  assert (Em' : minutes f = k mod 3600 / 60).
  { rewrite Em. replace (k * U mod (3600 * U)) with (k mod 3600 * U)
      by (rewrite Z.mul_mod_distr_r by lia; reflexivity).
    apply Z.div_mul_cancel_r; lia. }
  assert (Es' : secs f = k mod 60).
  { rewrite Es. rewrite Z.mul_mod_distr_r by lia. apply Z.div_mul. lia. }
  assert (Ems : millis f = 0).
  { rewrite Emp. rewrite Z.mod_mul in Ep by lia.
    rewrite of_int_1000 in Ep. unfold mul, rnd in Ep.
    rewrite Z.mul_0_l, round_0 in Ep by lia.
    change (Z.abs 0) with 0 in Ep. pose proof MAX_pos.
    destruct (Z.ltb_spec MAX 0); [lia|]. injection Ep as <-.
    apply Z.div_0_l. lia. }
  rewrite Esrt, Evtt, Eh, Em', Es', Ems. split; reflexivity.
Qed.

Lemma whole_seconds_are_printed_exactly_witness :
  0 <= 3725 < 2 ^ 53 /\
  format_timestamp_srt (of_int 3725) = Ret "01:02:05,000" /\
  format_timestamp_vtt (of_int 3725) = Ret "01:02:05.000".
Proof.
  assert (H : 0 <= 3725 < 2 ^ 53) by (split; [discriminate | reflexivity]).
  split; [exact H|].
  exact (whole_seconds_are_printed_exactly 3725 H).
Defined.

Lemma lstrip_spec s :
  exists a, s = a ++ lstrip s /\ string_forall isspace a = true /\
            starts_with_space (lstrip s) = false.
Proof.
  induction s as [|c s IH].
  - exists "". repeat split.
  - cbn [lstrip]. destruct (isspace c) eqn:Ec.
    + destruct IH as [a [Ha [Hsp Hst]]]. exists (String c a).
      cbn [append string_forall]. rewrite Ec, Hsp, <- Ha. repeat split. exact Hst.
    + exists "". cbn [append string_forall starts_with_space]. repeat split. exact Ec.
Qed.

Lemma rstrip_spec s :
  exists b, s = rstrip s ++ b /\ string_forall isspace b = true /\
            ends_with_space (rstrip s) = false.
Proof.
  induction s as [|c s IH].
  - exists "". repeat split.
  - destruct IH as [b [Hb [Hsp Hend]]]. cbn [rstrip].
    destruct (rstrip s) as [|d t] eqn:Er.
    + cbn [append] in Hb. destruct (isspace c) eqn:Ec.
      * exists (String c b). cbn [append string_forall]. rewrite Ec, Hsp, Hb.
        repeat split.
      * exists b. cbn [append ends_with_space]. rewrite Hb.
        repeat split; assumption.
    + exists b. cbn [append] in *. rewrite <- Hb.
      repeat split; [exact Hsp|]. exact Hend.
Qed.

Lemma rstrip_keeps_start s :
  starts_with_space s = false -> starts_with_space (rstrip s) = false.
Proof.
  destruct s as [|c s]; [reflexivity|]. cbn [starts_with_space rstrip]. intros Hc.
  destruct (rstrip s); [rewrite Hc|]; cbn [starts_with_space]; auto.
Qed.

Lemma lstrip_fixed s : starts_with_space s = false -> lstrip s = s.
Proof.
  destruct s as [|c s]; [reflexivity|]. cbn [starts_with_space lstrip].
  intros ->. reflexivity.
Qed.

Lemma rstrip_fixed s : ends_with_space s = false -> rstrip s = s.
Proof.
  induction s as [|c s IH]; [reflexivity|].
  cbn [rstrip]. destruct s as [|d t].
  - cbn [ends_with_space rstrip]. intros ->. reflexivity.
  - intros H. change (ends_with_space (String d t) = false) in H.
    rewrite (IH H). reflexivity.
Qed.

(** X15: the text line of a caption, [text.strip()], is the text without
    a leading and a trailing run of whitespace and nothing else removed: it
    neither starts nor ends with a whitespace character, and stripping it
    again changes nothing. *)
Theorem strip_removes_surrounding_whitespace s :
  (exists a b, s = a ++ strip s ++ b /\
               string_forall isspace a = true /\ string_forall isspace b = true) /\
  starts_with_space (strip s) = false /\
  ends_with_space (strip s) = false /\
  strip (strip s) = strip s.
Proof.
  unfold strip.
  destruct (lstrip_spec s) as [a [Ha [Hsa Hst]]].
  destruct (rstrip_spec (lstrip s)) as [b [Hb [Hsb Hend]]].
  pose proof (rstrip_keeps_start _ Hst) as Hst'.
  repeat split.
  - exists a, b. rewrite <- Hb. repeat split; assumption.
  - exact Hst'.
  - exact Hend.
  - rewrite (lstrip_fixed _ Hst'). apply rstrip_fixed. exact Hend.
Qed.

Lemma take_drop i s : take i s ++ drop i s = s.
Proof.
  revert s. induction i as [|i IH]; intros s.
  - destruct s; reflexivity.
  - destruct s as [|c s]; [reflexivity|]. cbn [take drop append]. rewrite IH. reflexivity.
Qed.

Lemma splitext_parts p : fst (splitext p) ++ snd (splitext p) = p.
Proof.
  unfold splitext. destruct (rfind "." p) as [dotIndex|].
  - destruct (_ && _); cbn [fst snd]; [apply take_drop|].
    clear. induction p; cbn; congruence.
  - cbn [fst snd]. clear. induction p; cbn; congruence.
Qed.

(** X16: an upload gets past the extension check only if it has a file
    name that ends with one of the allowed extensions, in any letter
    case. *)
Theorem accepted_upload_ends_with_an_allowed_extension (f : UploadFile) :
  mem (file_ext_of f) allowed_extensions = true ->
  exists p stem ext,
    filename f = Some p /\ p = stem ++ ext /\ In (lower ext) allowed_extensions.
Proof.
  unfold file_ext_of. destruct (filename f) as [[|c n]|]; try discriminate.
  intros H. exists (String c n), (fst (splitext (String c n))), (snd (splitext (String c n))).
  split; [reflexivity|]. split; [symmetry; apply splitext_parts|].
  unfold mem in H. apply existsb_exists in H. destruct H as [x [Hin Heq]].
  apply String.eqb_eq in Heq. rewrite Heq. exact Hin.
Qed.

Lemma accepted_upload_ends_with_an_allowed_extension_witness :
  exists p stem ext,
    filename (mk_upload (Some "Talk.MP3") (Ret "ID3")) = Some p /\
    p = stem ++ ext /\ In (lower ext) allowed_extensions.
Proof.
  exact (accepted_upload_ends_with_an_allowed_extension
           (mk_upload (Some "Talk.MP3") (Ret "ID3")) eq_refl).
Defined.

Lemma digit_char_value d : 0 <= d < 10 -> Z.of_nat (nat_of_ascii (digit_char d)) - 48 = d.
Proof.
  intros Hd. apply Z.eqb_eq.
  apply (forall_below (fun d => Z.of_nat (nat_of_ascii (digit_char d)) - 48 =? d) 10);
    [reflexivity | lia].
Qed.

Lemma digits_from_value fuel : forall n acc,
  0 <= n < 10 ^ Z.of_nat fuel ->
  exists k, 0 <= k /\ forall v,
    decimal_value (digits_from fuel n acc) v = decimal_value acc (v * 10 ^ k + n).
Proof.
  induction fuel as [|fuel IH]; intros n acc Hn.
  - exists 0. split; [lia|]. intros v. cbn [digits_from].
    change (10 ^ Z.of_nat 0) with 1 in Hn. f_equal. lia.
  - cbn [digits_from].
    pose proof (Z.mod_pos_bound n 10 ltac:(lia)) as Hm.
    pose proof (Z.div_mod n 10 ltac:(lia)) as Hdm.
    destruct (Z.ltb_spec n 10) as [Hlt|Hge].
    + exists 1. split; [lia|]. intros v. cbn [decimal_value].
      rewrite digit_char_value by lia. f_equal. rewrite Z.mod_small by lia. lia.
    + destruct (IH (n / 10) (String (digit_char (n mod 10)) acc)) as [k [Hk Hv]].
      { split; [apply Z.div_pos; lia|].
        apply Z.div_lt_upper_bound; [lia|].
        rewrite Nat2Z.inj_succ, Z.pow_succ_r in Hn by lia. lia. }
      exists (k + 1). split; [lia|]. intros v. rewrite Hv. cbn [decimal_value].
      rewrite digit_char_value by lia. f_equal.
      rewrite Z.pow_add_r by lia. lia.
Qed.

Lemma digits_value n : 0 <= n -> decimal_value (digits n) 0 = n.
Proof.
  intros Hn. unfold digits.
  destruct (digits_from_value (S (Z.to_nat (Z.log2 n))) n "") as [k [_ Hv]].
  - split; [lia|].
    rewrite Nat2Z.inj_succ, Z2Nat.id by apply Z.log2_nonneg.
    pose proof (log2_lt_pow2 n Hn) as H2.
    pose proof (Z.log2_nonneg n).
    assert (2 ^ (Z.log2 n + 1) <= 10 ^ (Z.log2 n + 1))
      by (apply Z.pow_le_mono_l; lia).
    replace (Z.succ (Z.log2 n)) with (Z.log2 n + 1) by lia. lia.
  - rewrite Hv. cbn [decimal_value]. lia.
Qed.

Lemma decimal_value_app s t v :
  decimal_value (s ++ t) v = decimal_value t (decimal_value s v).
Proof. revert v. induction s; intros v; cbn [append decimal_value]; auto. Qed.

Lemma decimal_value_zeros k : decimal_value (zeros k) 0 = 0.
Proof. induction k; cbn [zeros decimal_value]; auto. Qed.

(** X17: what the formatters print reads back: for a non-negative field
    value [n] and any minimal width, the digits of [{n:0wd}], read as a
    decimal number, give [n] again; padding only adds leading zeros. *)
Theorem format_d_reads_back w n :
  0 <= n ->
  all_digits (format_d w n) = true /\
  decimal_value (format_d w n) 0 = n /\
  String.length (format_d w n) = Nat.max w (String.length (digits n)).
Proof.
  intros Hn. split; [apply format_d_all_digits; lia|]. split.
  - rewrite format_d_nonneg, decimal_value_app, decimal_value_zeros by lia.
    apply digits_value. lia.
  - apply format_d_length. lia.
Qed.

Lemma format_d_reads_back_witness :
  0 <= 7 /\ decimal_value (format_d 3 7) 0 = 7.
Proof.
  split; [discriminate|].
  exact (proj1 (proj2 (format_d_reads_back 3 7 ltac:(discriminate)))).
Defined.
